(** * IPC: a nonce-correlated request/response layer over one websocket

    Shallow embedding of [src/ipc/server.py] and [src/ipc/client.py].

    Modelling conventions.
    - A string is the sequence of the bytes of its UTF-8 encoding; it is
      ASCII when every byte is below 128.
    - What travels on the socket is a JSON document ([json]); what a handler
      returns is a Python value ([pyval]).  The Python values modelled are
      None, booleans, integers, strings, lists, tuples, dictionaries keyed
      by strings, integers or other hashable objects, instances of classes
      the JSON encoder does not know, and containers that contain
      themselves.  Floats are left out, and so are the limits of the
      interpreter: integers are taken below its digit limit for conversion
      to text and nesting below its recursion limit.
    - An exception is a class name with a message.  What a handler raises
      is either caught by [except Exception] ([Raises]) or is not
      ([Aborts]: SystemExit, KeyboardInterrupt, CancelledError).
    - Coroutines are cut at their suspension points: one iteration of a loop
      is one function from state to state, and [request] is split into the
      part before [wait_for] and the part that resumes after it.
    - The transport is taken as given: a connection attempt succeeds, and
      an application frame carries a well-formed JSON document. *)

From Stdlib Require Import ZArith Lia DecimalString.
From stdpp Require Import base option gmap strings list fin_maps.

Local Open Scope Z_scope.
Set Warnings "-register-all".

(** ** Values *)

Inductive json : Type :=
| JNull
| JBool (b : bool)
| JInt (z : Z)
| JStr (s : string)
| JList (l : list json)
| JDict (d : list (string * json)).

(** A dictionary key: a string, an integer, or a hashable object of a
    class that is none of str, int, float, bool and NoneType (a tuple, a
    frozenset, ...), of which only the class name matters. *)
Inductive pykey : Type :=
| KStr (s : string)
| KInt (z : Z)
| KOther (cls : string).

Inductive pyval : Type :=
| PNone
| PBool (b : bool)
| PInt (z : Z)
| PStr (s : string)
| PList (l : list pyval)
| PTuple (l : list pyval)
| PDict (d : list (pykey * pyval))
| PObject (cls : string)
| PCyclic.

Record exn : Type := Exn { exn_type : string; exn_msg : string }.

Definition TypeError (msg : string) : exn := Exn "TypeError" msg.
Definition AttributeError (msg : string) : exn := Exn "AttributeError" msg.
Definition KeyError (msg : string) : exn := Exn "KeyError" msg.
Definition ValueError (msg : string) : exn := Exn "ValueError" msg.

(** [isinstance(e, TypeError)], as the clause [except TypeError] tests it. *)
Definition is_TypeError (e : exn) : bool := bool_decide (exn_type e = "TypeError").

(** The error monad of fallible steps: [inl e] is "raised e". *)
Definition bind_exn {A B : Type} (m : exn + A) (k : A -> exn + B) : exn + B :=
  match m with
  | inl e => inl e
  | inr a => k a
  end.

Notation "'try' x ':=' m 'in' k" := (bind_exn m (fun x => k))
  (at level 10, x name, m at level 100, k at level 200, only parsing).

(** [type(v).__name__] for a decoded JSON document. *)
Definition type_name (j : json) : string :=
  match j with
  | JNull => "NoneType"
  | JBool _ => "bool"
  | JInt _ => "int"
  | JStr _ => "str"
  | JList _ => "list"
  | JDict _ => "dict"
  end.

(** Python truth value: [not x] is [negb (truthy x)]. *)
Definition truthy (j : json) : bool :=
  match j with
  | JNull => false
  | JBool b => b
  | JInt z => negb (Z.eqb z 0)
  | JStr s => negb (bool_decide (s = ""))
  | JList l => negb (bool_decide (l = []))
  | JDict d => match d with [] => false | _ :: _ => true end
  end.

(** Lookup in a dictionary given by its items. *)
Fixpoint assoc (key : string) (d : list (string * json)) : option json :=
  match d with
  | [] => None
  | (k, v) :: d' => if decide (k = key) then Some v else assoc key d'
  end.

(** [d.get(key)]: None when the key is absent. *)
Definition dict_get (d : list (string * json)) (key : string) : json :=
  default JNull (assoc key d).

(** [str.isascii]. *)
Definition is_ascii_char (a : Ascii.ascii) : bool :=
  match a with
  | Ascii.Ascii _ _ _ _ _ _ _ b7 => negb b7
  end.

Fixpoint is_ascii (s : string) : bool :=
  match s with
  | EmptyString => true
  | String a s' => is_ascii_char a && is_ascii s'
  end.

(** [str(z)] for an integer. *)
Definition str_of_int (z : Z) : string := NilZero.string_of_int (Z.to_int z).

(** [str.startswith] and [str.endswith]. *)
Definition startswith (p s : string) : bool := String.prefix p s.

Fixpoint endswith (suffix s : string) : bool :=
  if decide (s = suffix) then true
  else match s with
       | EmptyString => false
       | String _ s' => endswith suffix s'
       end.

(** ** The JSON codec ([json.dumps] behind [send_json], [json.loads] behind
    [message.json()]) *)

Definition not_serializable (cls : string) : exn :=
  TypeError ("Object of type " +:+ cls +:+ " is not JSON serializable").

Definition bad_key (cls : string) : exn :=
  TypeError ("keys must be str, int, float, bool or None, not " +:+ cls).

(** The encoder walks the value left to right and raises at the first thing
    it cannot encode: an object of an unknown class, a dictionary key
    that is not a primitive, or a container it is already inside of.  A
    tuple is written as a list, an integer key as its decimal text. *)
Fixpoint dumps (v : pyval) : exn + json :=
  match v with
  | PNone => inr JNull
  | PBool b => inr (JBool b)
  | PInt z => inr (JInt z)
  | PStr s => inr (JStr s)
  | PList l =>
      let fix items (l : list pyval) : exn + list json :=
        match l with
        | [] => inr []
        | x :: xs =>
            try j := dumps x in
            try js := items xs in
            inr (j :: js)
        end in
      try js := items l in inr (JList js)
  | PTuple l =>
      let fix items (l : list pyval) : exn + list json :=
        match l with
        | [] => inr []
        | x :: xs =>
            try j := dumps x in
            try js := items xs in
            inr (j :: js)
        end in
      try js := items l in inr (JList js)
  | PDict d =>
      let fix items (d : list (pykey * pyval)) : exn + list (string * json) :=
        match d with
        | [] => inr []
        | (KOther cls, _) :: _ => inl (bad_key cls)
        | (KStr k, x) :: xs =>
            try j := dumps x in
            try js := items xs in
            inr ((k, j) :: js)
        | (KInt z, x) :: xs =>
            try j := dumps x in
            try js := items xs in
            inr ((str_of_int z, j) :: js)
        end in
      try js := items d in inr (JDict js)
  | PObject cls => inl (not_serializable cls)
  | PCyclic => inl (ValueError "Circular reference detected")
  end.

Fixpoint loads (j : json) : pyval :=
  match j with
  | JNull => PNone
  | JBool b => PBool b
  | JInt z => PInt z
  | JStr s => PStr s
  | JList l => PList (map loads l)
  | JDict d => PDict (map (fun kv => (KStr (fst kv), loads (snd kv))) d)
  end.


(** ** Server ([src/ipc/server.py]) *)

Module server.

Record Context : Type := { data : json; endpoint : json }.

Inductive outcome : Type :=
| Returns (ret : pyval)
| Raises (error : exn)
| Aborts (error : exn).

(** A route function: its [__name__] and what awaiting it on a context
    gives. *)
Record handler : Type := { func_name : string; run : Context -> outcome }.

Record Server : Type := {
  secret_key : string;
  host : string;
  port : Z;
  endpoints : gmap string handler
}.

(** [route(name)(func)]: files [func] in the class-level table [ROUTES],
    under [name], or under the function's own name when [name] is None or
    empty. *)
Definition route (name : option string) (func : handler)
    (ROUTES : gmap string handler) : gmap string handler :=
  match name with
  | Some n => if bool_decide (n = "") then <[func_name func := func]> ROUTES
              else <[n := func]> ROUTES
  | None => <[func_name func := func]> ROUTES
  end.

(** [update_endpoints]: [{**self.endpoints, **self.ROUTES}], then
    [ROUTES.clear()].  stdpp's union keeps the left operand's entry. *)
Definition update_endpoints (srv : Server) (ROUTES : gmap string handler)
    : Server * gmap string handler :=
  ({| secret_key := secret_key srv; host := host srv; port := port srv;
      endpoints := ROUTES ∪ endpoints srv |}, ∅).

(** What handling one inbound message did: the frames written to the
    socket, the handlers awaited, and the exception that left the loop body,
    if any. *)
Record step : Type := {
  sent : list json;
  calls : list (handler * Context);
  raised : option exn
}.

Definition crash (calls : list (handler * Context)) (e : exn) : step :=
  {| sent := []; calls := calls; raised := Some e |}.

Definition error_body (msg : string) (code : Z) : pyval :=
  PDict [(KStr "error", PStr msg); (KStr "code", PInt code)].

(** [{"nonce": nonce, "response": body}] *)
Definition envelope (nonce : json) (body : pyval) : pyval :=
  PDict [(KStr "nonce", loads nonce); (KStr "response", body)].

Definition send_json (v : pyval) : exn + json := dumps v.

(** The envelope as it goes out on the wire, and the one carrying
    [{"error": msg, "code": code}]. *)
Definition response_frame (nonce response : json) : json :=
  JDict [("nonce", nonce); ("response", response)].

Definition error_frame (nonce : json) (msg : string) (code : Z) : json :=
  response_frame nonce (JDict [("error", JStr msg); ("code", JInt code)]).

Definition not_sendable : string :=
  "IPC route returned values which are not able to be sent over sockets."
  +:+ " If you are trying to send a discord.py object,"
  +:+ " please only send the data you need.".

(** Lines 131-149: send the response; a TypeError whose text says
    "Object of type ... is not JSON serializable" is answered with a 500
    envelope, any other TypeError is dropped, anything else propagates. *)
Definition reply (nonce : json) (body : pyval)
    (calls : list (handler * Context)) : step :=
  match send_json (envelope nonce body) with
  | inr frame => {| sent := [frame]; calls := calls; raised := None |}
  | inl error =>
      if is_TypeError error then
        if startswith "Object of type" (exn_msg error)
           && endswith "is not JSON serializable" (exn_msg error)
        then
          match send_json (envelope nonce (error_body not_sendable 500)) with
          | inr frame => {| sent := [frame]; calls := calls; raised := None |}
          | inl error' => crash calls error'
          end
        else {| sent := []; calls := calls; raised := None |}
      else crash calls error
  end.

(** [hmac.compare_digest(a, b)] with [b] a string: a TypeError unless [a]
    is a string too and both are ASCII. *)
Definition compare_digest (a : json) (b : string) : exn + bool :=
  match a with
  | JStr s =>
      if is_ascii s && is_ascii b then inr (bool_decide (s = b))
      else inl (TypeError "comparing strings with non-ASCII characters is not supported")
  | _ => inl (TypeError ("unsupported operand types(s) or combination of types: '"
                         +:+ type_name a +:+ "' and 'str'"))
  end.

(** [headers.get("Authorization")] on whatever [headers] is. *)
Definition get_attr (headers : json) (key : string) : exn + json :=
  match headers with
  | JDict d => inr (dict_get d key)
  | _ => inl (AttributeError ("'" +:+ type_name headers
                              +:+ "' object has no attribute 'get'"))
  end.

(** The negation of the test of line 87: [inr true] when the request is let
    through. *)
Definition authorized (srv : Server) (headers : json) : exn + bool :=
  if negb (truthy headers) then inr false
  else
    try a := get_attr headers "Authorization" in
    compare_digest a (secret_key srv).

(** [endpoint in self.endpoints] and [self.endpoints[endpoint]]: hashing a
    list or a dict raises; a key that is not a string equals no name. *)
Definition find_endpoint (registry : gmap string handler) (key : json)
    : exn + option handler :=
  match key with
  | JStr s => inr (registry !! s)
  | JList _ | JDict _ =>
      inl (TypeError ("unhashable type: '" +:+ type_name key +:+ "'"))
  | _ => inr None
  end.

(** The body of the [async for] loop of [handle_accept], lines 82-149. *)
Definition handle_message (srv : Server) (message : json) : step :=
  match message with
  | JDict request =>
      let endpoint := dict_get request "endpoint" in
      let headers := dict_get request "headers" in
      let nonce := dict_get request "nonce" in
      match authorized srv headers with
      | inl e => crash [] e
      | inr false =>
          reply nonce (error_body "Invalid or no token provided." 401) []
      | inr true =>
          if negb (truthy endpoint) then
            reply nonce (error_body "Invalid or no endpoint given." 400) []
          else
            match find_endpoint (endpoints srv) endpoint with
            | inl e => crash [] e
            | inr None =>
                reply nonce (error_body "Invalid or no endpoint given." 400) []
            | inr (Some func) =>
                match assoc "data" request with
                | None => crash [] (KeyError "'data'")
                | Some data =>
                    let server_response :=
                      {| data := data; endpoint := endpoint |} in
                    match run func server_response with
                    | Raises error =>
                        reply nonce
                          (error_body ("IPC route raised error of type "
                                       +:+ exn_type error) 500)
                          [(func, server_response)]
                    | Returns ret =>
                        reply nonce ret [(func, server_response)]
                    | Aborts error =>
                        crash [(func, server_response)] error
                    end
                end
            end
      end
  | _ => crash [] (AttributeError ("'" +:+ type_name message
                                   +:+ "' object has no attribute 'get'"))
  end.

(** The [async for] loop: messages are handled one after the other until
    the socket runs dry or an exception leaves the body. *)
Fixpoint serve (srv : Server) (messages : list json) : step :=
  match messages with
  | [] => {| sent := []; calls := []; raised := None |}
  | message :: rest =>
      let now := handle_message srv message in
      match raised now with
      | Some _ => now
      | None =>
          let later := serve srv rest in
          {| sent := sent now ++ sent later;
             calls := calls now ++ calls later;
             raised := raised later |}
      end
  end.

(** [handle_accept]: merge the pending routes, then serve the connection. *)
Definition handle_accept (srv : Server) (ROUTES : gmap string handler)
    (messages : list json) : Server * gmap string handler * step :=
  let '(srv', ROUTES') := update_endpoints srv ROUTES in
  (srv', ROUTES', serve srv' messages).

(** [Server.__init__]: a server starts with an empty live registry.  The
    attributes [bot], [loop] and [_server] play no part in handling a
    connection and are left out. *)
Definition init (secret_key host : string) (port : Z) : Server :=
  {| secret_key := secret_key; host := host; port := port; endpoints := ∅ |}.

End server.

(** ** Client ([src/ipc/client.py]) *)

Module client.

(** A message handed out by [websocket.receive()], by its [WSMsgType]:
    [OTHER] stands for CLOSE, CLOSING and ERROR, whose data is not JSON
    text. *)
Inductive WSMessage : Type :=
| TEXT (document : json)
| PING
| PONG
| CLOSED
| OTHER.

(** A frame the client writes to its socket. *)
Inductive frame : Type :=
| JsonFrame (payload : json)
| PingFrame
| PongFrame.

(** An [asyncio.Future] of the pending table. *)
Inductive future : Type :=
| Pending
| Done (result : pyval).

(** An [asyncio.Task] running one of the two loops. *)
Inductive task : Type :=
| Running
| Failed (error : exn).

(** An [aiohttp.ClientSession] object; a closed one is still an object. *)
Inductive session : Type :=
| Live
| Shut.

(** The attributes of [Client], and two ghost fields: the number of sockets
    opened so far, and the frames written so far (oldest first), each with
    the socket it went to.  [_requests] is the weak table: it holds a
    future for exactly as long as the [request] call that made it is
    suspended on it. *)
Record Client : Type := {
  secret_key : string;
  host : string;
  port : Z;
  _session : option session;
  _websocket : option nat;
  _requests : gmap string future;
  _queue : list json;
  _worker : option task;
  _sender : option task;
  sockets : nat;
  wire : list (nat * frame)
}.

Definition set_requests (c : Client) (r : gmap string future) : Client :=
  {| secret_key := secret_key c; host := host c; port := port c;
     _session := _session c; _websocket := _websocket c; _requests := r;
     _queue := _queue c; _worker := _worker c; _sender := _sender c;
     sockets := sockets c; wire := wire c |}.

Definition set_queue (c : Client) (q : list json) : Client :=
  {| secret_key := secret_key c; host := host c; port := port c;
     _session := _session c; _websocket := _websocket c;
     _requests := _requests c; _queue := q; _worker := _worker c;
     _sender := _sender c; sockets := sockets c; wire := wire c |}.

Definition set_worker (c : Client) (w : option task) : Client :=
  {| secret_key := secret_key c; host := host c; port := port c;
     _session := _session c; _websocket := _websocket c;
     _requests := _requests c; _queue := _queue c; _worker := w;
     _sender := _sender c; sockets := sockets c; wire := wire c |}.

Definition set_sender (c : Client) (s : option task) : Client :=
  {| secret_key := secret_key c; host := host c; port := port c;
     _session := _session c; _websocket := _websocket c;
     _requests := _requests c; _queue := _queue c; _worker := _worker c;
     _sender := s; sockets := sockets c; wire := wire c |}.

Definition set_session (c : Client) (s : option session) : Client :=
  {| secret_key := secret_key c; host := host c; port := port c;
     _session := s; _websocket := _websocket c;
     _requests := _requests c; _queue := _queue c; _worker := _worker c;
     _sender := _sender c; sockets := sockets c; wire := wire c |}.

Definition set_wire (c : Client) (w : list (nat * frame)) : Client :=
  {| secret_key := secret_key c; host := host c; port := port c;
     _session := _session c; _websocket := _websocket c;
     _requests := _requests c; _queue := _queue c; _worker := _worker c;
     _sender := _sender c; sockets := sockets c; wire := w |}.

(** [Client.__init__] *)
Definition init (secret_key host : string) (port : Z) : Client :=
  {| secret_key := secret_key; host := host; port := port;
     _session := None; _websocket := None; _requests := ∅; _queue := [];
     _worker := None; _sender := None; sockets := 0%nat; wire := [] |}.

Definition start_if_none (t : option task) : option task :=
  match t with
  | None => Some Running
  | Some _ => t
  end.

(** [init_sock]: a new session and a new socket; each loop is started only
    if its attribute is None. *)
Definition init_sock (c : Client) : Client :=
  {| secret_key := secret_key c; host := host c; port := port c;
     _session := Some Live; _websocket := Some (sockets c);
     _requests := _requests c; _queue := _queue c;
     _worker := start_if_none (_worker c);
     _sender := start_if_none (_sender c);
     sockets := S (sockets c); wire := wire c |}.

(** Writing a frame on [self._websocket]: the socket of a closed session
    refuses it. *)
Definition write (c : Client) (f : frame) : exn + Client :=
  match _websocket c, _session c with
  | Some ws, Some Live => inr (set_wire c (wire c ++ [(ws, f)]))
  | Some _, _ => inl (Exn "ConnectionResetError" "Cannot write to closing transport")
  | None, _ => inl (AttributeError "'NoneType' object has no attribute 'send_json'")
  end.

(** The envelope built by [request], lines 59-64.  [kwargs] are the
    keyword arguments, taken to be JSON data. *)
Definition payload (c : Client) (endpoint : string)
    (kwargs : list (string * json)) (nonce : string) : json :=
  JDict [("endpoint", JStr endpoint);
         ("data", JDict kwargs);
         ("headers", JDict [("Authorization", JStr (secret_key c))]);
         ("nonce", JStr nonce)].

(** [request] up to its suspension on [wait_for] (lines 54-67); [nonce] is
    the token drawn by [secrets.token_urlsafe].  On a client that has a
    session these lines run without suspension.  On a client that has
    none the call is suspended inside [init_sock] while the socket is
    being opened: the step then shows the call with no other call made
    in the meantime. *)
Definition request_begin (c : Client) (endpoint : string)
    (kwargs : list (string * json)) (nonce : string) : Client :=
  let c := match _session c with
           | None => init_sock c
           | Some _ => c
           end in
  let c := set_queue c (_queue c ++ [payload c endpoint kwargs nonce]) in
  set_requests c (<[nonce := Pending]> (_requests c)).

(** [asyncio.wait_for(future, timeout)] at the moment the waiting call is
    resumed, [elapsed] time units after the wait began: that moment is the
    resolution of the future or the deadline, whichever comes first.  A
    future resolved before the deadline gives its result; at or after the
    deadline the wait has ended in TimeoutError, whether the future was
    resolved by then or not (with [timeout <= 0] that is at once).  While
    the future is pending and the deadline has not come the wait goes on
    (None).  [timeout = None] sets no deadline. *)
Definition wait_for (fut : future) (timeout : option Z) (elapsed : Z)
    : option (exn + pyval) :=
  let expired := match timeout with
                 | Some t => t <=? elapsed
                 | None => false
                 end in
  if expired then Some (inl (Exn "TimeoutError" ""))
  else match fut with
       | Done result => Some (inr result)
       | Pending => None
       end.

(** [request] from its resumption (lines 68-72).  [default_value = None]
    is the argument left out.  The result is None while the call stays
    suspended, [inr] a returned value, [inl] an exception raised to the
    caller.  On the way out the call releases its future, which thereby
    leaves the weak table. *)
Definition request_end (c : Client) (nonce : string) (timeout : option Z)
    (default_value : option pyval) (elapsed : Z)
    : option (Client * (exn + pyval)) :=
  match _requests c !! nonce with
  | Some fut =>
      match wait_for fut timeout elapsed with
      | Some r =>
          let c' := set_requests c (delete nonce (_requests c)) in
          match r with
          | inr result => Some (c', inr result)
          | inl error =>
              if bool_decide (exn_type error = "TimeoutError")
              then Some (c', inr (default PNone default_value))
              else Some (c', inl error)
          end
      | None => None
      end
  | None => None
  end.

(** One iteration of [_send_requests], run only while the sender task is
    alive: blocked on an empty queue, else one payload written. *)
Definition send_step (c : Client) : Client :=
  match _sender c with
  | Some Running =>
      match _queue c with
      | [] => c
      | p :: rest =>
          match write (set_queue c rest) (JsonFrame p) with
          | inr c' => c'
          | inl e => set_sender (set_queue c rest) (Some (Failed e))
          end
      end
  | _ => c
  end.

(** [future.set_result(ret)]: a future that is already done raises. *)
Definition set_result (f : future) (ret : pyval) : exn + future :=
  match f with
  | Pending => inr (Done ret)
  | Done _ => inl (Exn "InvalidStateError" "invalid state")
  end.

(** [self._requests[nonce]]: [inr None] is the KeyError that the loop
    catches, [inl] any other exception. *)
Definition find_future (requests : gmap string future) (nonce : json)
    : exn + option future :=
  match nonce with
  | JStr s => inr (requests !! s)
  | JList _ | JDict _ =>
      inl (TypeError ("unhashable type: '" +:+ type_name nonce +:+ "'"))
  | _ => inr None
  end.

(** The [else] branch of [_receive_requests], lines 95-106. *)
Definition resolve (c : Client) (response : json) : exn + Client :=
  match response with
  | JDict d =>
      match assoc "nonce" d with
      | None => inl (KeyError "'nonce'")
      | Some nonce =>
          try found := find_future (_requests c) nonce in
          match found, nonce with
          | Some fut, JStr s =>
              let ret := default response (assoc "response" d) in
              try fut' := set_result fut (loads ret) in
              inr (set_requests c (<[s := fut']> (_requests c)))
          | _, _ => inr c
          end
      end
  | _ => inl (TypeError ("'" +:+ type_name response
                         +:+ "' cannot be indexed by 'nonce'"))
  end.

(** One iteration of [_receive_requests] on the message [recv], run only
    while the worker task is alive; an exception ends the task. *)
Definition receive_step (c : Client) (recv : WSMessage) : Client :=
  match _worker c with
  | Some Running =>
      let done (r : exn + Client) : Client :=
        match r with
        | inr c' => c'
        | inl e => set_worker c (Some (Failed e))
        end in
      match recv with
      | PING => done (write c PingFrame)
      | PONG => c
      | CLOSED => init_sock (set_session c (Some Shut))
      | TEXT response => done (resolve c response)
      | OTHER => done (inl (TypeError "the JSON object must be str, bytes or bytearray"))
      end
  | _ => c
  end.

(** [close]: raises on a client that never had a session. *)
Definition close (c : Client) : exn + Client :=
  match _session c with
  | None => inl (AttributeError "'NoneType' object has no attribute 'close'")
  | Some _ =>
      inr (set_sender (set_worker (set_session c (Some Shut)) None) None)
  end.

(** What the other tasks may do while a [request] is suspended. *)
Inductive event : Type :=
| Send
| Receive (recv : WSMessage)
| Request (endpoint : string) (kwargs : list (string * json)) (nonce : string).

Definition react (c : Client) (e : event) : Client :=
  match e with
  | Send => send_step c
  | Receive recv => receive_step c recv
  | Request endpoint kwargs nonce => request_begin c endpoint kwargs nonce
  end.

Definition run (c : Client) (events : list event) : Client :=
  foldl react c events.

(** A client that can carry a call: either never connected or connected
    with both loops alive, and with nothing waiting in its send queue. *)
Definition ready (c : Client) : Prop :=
  _queue c = []
  /\ ((_session c = None /\ _worker c = None /\ _sender c = None)
      \/ (_session c = Some Live /\ is_Some (_websocket c)
          /\ _worker c = Some Running /\ _sender c = Some Running)).

(** A client after [close]: a closed session object, and no loop. *)
Definition closed (c : Client) : Prop :=
  _session c = Some Shut /\ _worker c = None /\ _sender c = None.

(** The first call seen through its suspension.  [init_sock] sets the
    session at line 34 and is then suspended at line 35 until the socket
    is open ([init_sock_begin]); on resumption it sets the socket and
    starts the loops, lines 35-45 ([init_sock_end]).  Lines 57-67 of
    [request] then run without suspension ([enqueue]). *)
Definition init_sock_begin (c : Client) : Client :=
  set_session c (Some Live).

Definition init_sock_end (c : Client) : Client :=
  {| secret_key := secret_key c; host := host c; port := port c;
     _session := _session c; _websocket := Some (sockets c);
     _requests := _requests c; _queue := _queue c;
     _worker := start_if_none (_worker c);
     _sender := start_if_none (_sender c);
     sockets := S (sockets c); wire := wire c |}.

Definition enqueue (c : Client) (endpoint : string)
    (kwargs : list (string * json)) (nonce : string) : Client :=
  let c := set_queue c (_queue c ++ [payload c endpoint kwargs nonce]) in
  set_requests c (<[nonce := Pending]> (_requests c)).

(** The envelopes of the [request] calls among [events], in call order. *)
Definition requested (c : Client) (events : list event) : list json :=
  omap (fun e => match e with
                 | Request endpoint kwargs nonce =>
                     Some (payload c endpoint kwargs nonce)
                 | _ => None
                 end) events.

(** The JSON documents among the frames written, oldest first. *)
Definition written (c : Client) : list json :=
  omap (fun f => match snd f with
                 | JsonFrame p => Some p
                 | _ => None
                 end) (wire c).

(** A send task that is alive has a live session and a socket to write
    to. *)
Definition wired (c : Client) : Prop :=
  _sender c = Some Running ->
  _session c = Some Live /\ is_Some (_websocket c).

(** No CLOSED message among the events. *)
Definition no_closed (events : list event) : Prop :=
  Forall (fun e => e <> Receive CLOSED) events.

End client.

(** ** One call across the socket *)

Definition documents (frames : list (nat * client.frame)) : list json :=
  omap (fun f => match snd f with
                 | client.JsonFrame p => Some p
                 | _ => None
                 end) frames.

(** [request] from call to return when nothing else is going on: the call
    is suspended, the send loop empties the queue, the server handles what
    was written, the receive loop takes in the replies, and the call
    resumes.  [elapsed] is the time from the start of the wait to the
    arrival of the replies; whether that is before the deadline is for
    [wait_for] to tell. *)
Definition call (srv : server.Server) (c : client.Client) (endpoint : string)
    (timeout : option Z) (default_value : option pyval)
    (kwargs : list (string * json)) (nonce : string) (elapsed : Z)
    : option (client.Client * (exn + pyval)) :=
  let c1 := client.request_begin c endpoint kwargs nonce in
  let c2 := Nat.iter (length (client._queue c1)) client.send_step c1 in
  let written := documents (drop (length (client.wire c)) (client.wire c2)) in
  let replies := server.sent (server.serve srv written) in
  let c3 := client.run c2 (client.Receive ∘ client.TEXT <$> replies) in
  client.request_end c3 nonce timeout default_value elapsed.


(** ** Sample data for the worked instances *)

Definition echo : server.handler :=
  {| server.func_name := "echo";
     server.run := fun ctx => server.Returns (loads (server.data ctx)) |}.

Definition boom : server.handler :=
  {| server.func_name := "boom";
     server.run := fun _ => server.Raises (Exn "ValueError" "db password is hunter2") |}.

Definition member : server.handler :=
  {| server.func_name := "member";
     server.run := fun _ => server.Returns (PList [PInt 1; PObject "Member"]) |}.

Definition grid : server.handler :=
  {| server.func_name := "grid";
     server.run := fun _ => server.Returns (PDict [(KOther "tuple", PInt 3)]) |}.

Definition demo_routes : gmap string server.handler :=
  server.route None grid
    (server.route (Some "") member
       (server.route (Some "fail") boom
          (server.route None echo ∅))).

Definition demo_server : server.Server :=
  fst (server.update_endpoints
         {| server.secret_key := "s3cret"; server.host := "localhost";
            server.port := 8765; server.endpoints := ∅ |}
         demo_routes).

Definition demo_request (endpoint : json) (headers : json) : list (string * json) :=
  [("endpoint", endpoint); ("data", JDict [("x", JInt 7)]);
   ("headers", headers); ("nonce", JStr "n-1")].

Definition demo_headers : json := JDict [("Authorization", JStr "s3cret")].

Definition demo_client : client.Client := client.init "s3cret" "localhost" 8765.



Definition umlaut_server : server.Server :=
  fst (server.update_endpoints (server.init "pässword" "localhost" 8765)
         (server.route None echo ∅)).

Definition umlaut_client : client.Client :=
  client.init "pässword" "localhost" 8765.

(** * Properties *)

(** ** Strings *)

Lemma startswith_app (p s : string) : startswith p (p +:+ s) = true.
Proof.
  unfold startswith. induction p as [|a p IH]; simpl.
  - by destruct s.
  - destruct (Ascii.ascii_dec a a); [exact IH | congruence].
Qed.

Lemma endswith_refl (s : string) : endswith s s = true.
Proof. destruct s; unfold endswith; case_decide; done. Qed.

Lemma endswith_app (p suffix : string) : endswith suffix (p +:+ suffix) = true.
Proof.
  induction p as [|a p IH]; simpl.
  - apply endswith_refl.
  - case_decide; [done | exact IH].
Qed.

Lemma append_assoc (a b c : string) : (a +:+ b) +:+ c = a +:+ (b +:+ c).
Proof.
  induction a as [|x a IH]; [done|].
  change (String x ((a +:+ b) +:+ c) = String x (a +:+ (b +:+ c))).
  by rewrite IH.
Qed.

Lemma dict_get_present (d : list (string * json)) (key : string) (v : json) :
  assoc key d = Some v -> dict_get d key = v.
Proof. unfold dict_get. by intros ->. Qed.

Lemma dict_get_absent (d : list (string * json)) (key : string) :
  assoc key d = None -> dict_get d key = JNull.
Proof. unfold dict_get. by intros ->. Qed.

(** ** The codec *)

Section json_induction.
Variable P : json -> Prop.
Hypothesis Hnull : P JNull.
Hypothesis Hbool : forall b, P (JBool b).
Hypothesis Hint : forall z, P (JInt z).
Hypothesis Hstr : forall s, P (JStr s).
Hypothesis Hlist : forall l, Forall P l -> P (JList l).
Hypothesis Hdict : forall d, Forall (fun kv => P (snd kv)) d -> P (JDict d).

Fixpoint json_nested_ind (j : json) : P j :=
  match j with
  | JNull => Hnull
  | JBool b => Hbool b
  | JInt z => Hint z
  | JStr s => Hstr s
  | JList l =>
      Hlist l ((fix all (l : list json) : Forall P l :=
                  match l with
                  | [] => Forall_nil_2 P
                  | x :: xs => Forall_cons_2 P x xs (json_nested_ind x) (all xs)
                  end) l)
  | JDict d =>
      Hdict d ((fix all (d : list (string * json))
                  : Forall (fun kv => P (snd kv)) d :=
                  match d with
                  | [] => Forall_nil_2 _
                  | kv :: xs =>
                      Forall_cons_2 (fun kv => P (snd kv)) kv xs
                        (json_nested_ind (snd kv)) (all xs)
                  end) d)
  end.
End json_induction.

Section pyval_induction.
Variable P : pyval -> Prop.
Hypothesis Hnone : P PNone.
Hypothesis Hbool : forall b, P (PBool b).
Hypothesis Hint : forall z, P (PInt z).
Hypothesis Hstr : forall s, P (PStr s).
Hypothesis Hlist : forall l, Forall P l -> P (PList l).
Hypothesis Htuple : forall l, Forall P l -> P (PTuple l).
Hypothesis Hdict : forall d, Forall (fun kv => P (snd kv)) d -> P (PDict d).
Hypothesis Hobject : forall cls, P (PObject cls).
Hypothesis Hcyclic : P PCyclic.

Fixpoint pyval_nested_ind (v : pyval) : P v :=
  match v with
  | PNone => Hnone
  | PBool b => Hbool b
  | PInt z => Hint z
  | PStr s => Hstr s
  | PList l =>
      Hlist l ((fix all (l : list pyval) : Forall P l :=
                  match l with
                  | [] => Forall_nil_2 P
                  | x :: xs => Forall_cons_2 P x xs (pyval_nested_ind x) (all xs)
                  end) l)
  | PTuple l =>
      Htuple l ((fix all (l : list pyval) : Forall P l :=
                   match l with
                   | [] => Forall_nil_2 P
                   | x :: xs => Forall_cons_2 P x xs (pyval_nested_ind x) (all xs)
                   end) l)
  | PDict d =>
      Hdict d ((fix all (d : list (pykey * pyval))
                  : Forall (fun kv => P (snd kv)) d :=
                  match d with
                  | [] => Forall_nil_2 _
                  | kv :: xs =>
                      Forall_cons_2 (fun kv => P (snd kv)) kv xs
                        (pyval_nested_ind (snd kv)) (all xs)
                  end) d)
  | PObject cls => Hobject cls
  | PCyclic => Hcyclic
  end.
End pyval_induction.

(** Whatever came off the wire can be put back on it unchanged. *)
Lemma dumps_loads (j : json) : dumps (loads j) = inr j.
Proof.
  induction j as [| | | |l IH|d IH] using json_nested_ind; try done.
  - simpl. induction IH as [|x xs Hx _ IHxs]; [done|].
    simpl in *. rewrite Hx. simpl.
    destruct (_ (map loads xs)) as [e|js] in IHxs |- *; simpl in *; congruence.
  - simpl. induction IH as [|[k x] xs Hx _ IHxs]; [done|].
    simpl in *. rewrite Hx. simpl.
    destruct (_ (map _ xs)) as [e|js] in IHxs |- *; simpl in *; congruence.
Qed.


(** The encoder raises nothing but its two TypeErrors and the ValueError
    of a reference cycle. *)
Lemma dumps_raises (v : pyval) (e : exn) :
  dumps v = inl e ->
  (exists cls, e = not_serializable cls \/ e = bad_key cls)
  \/ e = ValueError "Circular reference detected".
Proof.
  induction v as [| | | |l IH|l IH|d IH|cls|] using pyval_nested_ind;
    intros He; simpl in He; try done.
  - match type of He with bind_exn (?f l) _ = _ => set (items := f) in * end.
    assert (items l = inl e) as Hl
      by (destruct (items l); simpl in He; congruence).
    clear He. induction IH as [|x xs Hx _ IHxs]; simpl in Hl; [done|].
    destruct (dumps x) as [e'|jx]; simpl in Hl; [simplify_eq; by auto|].
    destruct (items xs) as [e'|jxs] eqn:Exs; simpl in Hl; [|done].
    simplify_eq. auto.
  - match type of He with bind_exn (?f l) _ = _ => set (items := f) in * end.
    assert (items l = inl e) as Hl
      by (destruct (items l); simpl in He; congruence).
    clear He. induction IH as [|x xs Hx _ IHxs]; simpl in Hl; [done|].
    destruct (dumps x) as [e'|jx]; simpl in Hl; [simplify_eq; by auto|].
    destruct (items xs) as [e'|jxs] eqn:Exs; simpl in Hl; [|done].
    simplify_eq. auto.
  - match type of He with bind_exn (?f d) _ = _ => set (items := f) in * end.
    assert (items d = inl e) as Hd
      by (destruct (items d); simpl in He; congruence).
    clear He. induction IH as [|[k x] xs Hx _ IHxs]; simpl in Hd; [done|].
    simpl in Hx.
    destruct k as [k|z|cls]; [| |simplify_eq; by eauto].
    + destruct (dumps x) as [e'|jx]; simpl in Hd; [simplify_eq; by auto|].
      destruct (items xs) as [e'|jxs] eqn:Exs; simpl in Hd; [|done].
      simplify_eq. auto.
    + destruct (dumps x) as [e'|jx]; simpl in Hd; [simplify_eq; by auto|].
      destruct (items xs) as [e'|jxs] eqn:Exs; simpl in Hd; [|done].
      simplify_eq. auto.
  - simplify_eq. eauto.
  - simplify_eq. by right.
Qed.

(** ** Sending a response (lines 131-149) *)

Lemma send_envelope (nonce : json) (body : pyval) :
  server.send_json (server.envelope nonce body)
  = match dumps body with
    | inr j => inr (server.response_frame nonce j)
    | inl e => inl e
    end.
Proof.
  unfold server.send_json, server.envelope. simpl.
  rewrite dumps_loads. simpl. by destruct (dumps body).
Qed.

Lemma reply_sends (nonce j : json) (body : pyval) calls :
  dumps body = inr j ->
  server.reply nonce body calls
  = {| server.sent := [server.response_frame nonce j];
       server.calls := calls; server.raised := None |}.
Proof. intros Hj. unfold server.reply. by rewrite send_envelope, Hj. Qed.

Lemma reply_error (nonce : json) (msg : string) (code : Z) calls :
  server.reply nonce (server.error_body msg code) calls
  = {| server.sent := [server.error_frame nonce msg code];
       server.calls := calls; server.raised := None |}.
Proof. by apply reply_sends. Qed.

Lemma guard_not_serializable (cls : string) :
  startswith "Object of type" (exn_msg (not_serializable cls))
  && endswith "is not JSON serializable" (exn_msg (not_serializable cls))
  = true.
Proof.
  apply andb_true_intro. split; [reflexivity|].
  change (exn_msg (not_serializable cls))
    with ("Object of type " +:+ cls +:+ " " +:+ "is not JSON serializable").
  rewrite <- !append_assoc. apply endswith_app.
Qed.

Lemma guard_bad_key (cls : string) :
  startswith "Object of type" (exn_msg (bad_key cls)) = false.
Proof. reflexivity. Qed.

Lemma reply_not_serializable (nonce : json) (body : pyval) (cls : string) calls :
  dumps body = inl (not_serializable cls) ->
  server.reply nonce body calls
  = {| server.sent := [server.error_frame nonce server.not_sendable 500];
       server.calls := calls; server.raised := None |}.
Proof.
  intros He. unfold server.reply at 1. rewrite send_envelope, He.
  change (is_TypeError (not_serializable cls)) with true. cbv iota.
  rewrite guard_not_serializable.
  by rewrite send_envelope.
Qed.

Lemma reply_bad_key (nonce : json) (body : pyval) (cls : string) calls :
  dumps body = inl (bad_key cls) ->
  server.reply nonce body calls
  = {| server.sent := []; server.calls := calls; server.raised := None |}.
Proof.
  intros He. unfold server.reply. rewrite send_envelope, He.
  change (is_TypeError (bad_key cls)) with true. cbv iota.
  by rewrite guard_bad_key.
Qed.

(** A step that raised nothing lets the loop go on to the next message. *)
Lemma serve_continues (srv : server.Server) (message : json) (rest : list json) :
  server.raised (server.handle_message srv message) = None ->
  server.serve srv (message :: rest)
  = {| server.sent := server.sent (server.handle_message srv message)
                      ++ server.sent (server.serve srv rest);
       server.calls := server.calls (server.handle_message srv message)
                       ++ server.calls (server.serve srv rest);
       server.raised := server.raised (server.serve srv rest) |}.
Proof. intros H. simpl. by rewrite H. Qed.

(** A step that raised ends the loop: later messages are never read. *)
Lemma serve_stops (srv : server.Server) (message : json) (rest : list json) e :
  server.raised (server.handle_message srv message) = Some e ->
  server.serve srv (message :: rest) = server.handle_message srv message.
Proof. intros H. simpl. by rewrite H. Qed.

(** ** Authentication (lines 87-96) *)

(** The test of line 87 lets through exactly the headers that hold the
    secret under "Authorization", the secret being ASCII. *)
Lemma authorized_iff (srv : server.Server) (headers : json) :
  server.authorized srv headers = inr true
  <-> exists h, headers = JDict h
             /\ assoc "Authorization" h = Some (JStr (server.secret_key srv))
             /\ is_ascii (server.secret_key srv) = true.
Proof.
  split.
  - destruct headers as [|b|z|s|l|h].
    + done.
    + by destruct b.
    + unfold server.authorized. simpl. by destruct (negb (z =? 0)).
    + unfold server.authorized. simpl. by destruct (negb (bool_decide (s = ""))).
    + unfold server.authorized. simpl. by destruct (negb (bool_decide (l = []))).
    + destruct h as [|kv h]; [done|].
      change (server.authorized srv (JDict (kv :: h)))
        with (server.compare_digest (dict_get (kv :: h) "Authorization")
                (server.secret_key srv)).
      generalize (kv :: h). intros d. unfold dict_get, server.compare_digest.
      destruct (assoc "Authorization" d) as [[| | |s| |]|] eqn:E; simpl; try done.
      destruct (is_ascii s) eqn:Hs; simpl; [|done].
      destruct (is_ascii (server.secret_key srv)) eqn:Hk; simpl; [|done].
      intros [= Heq%bool_decide_eq_true]. subst. eauto.
  - intros (h & -> & Hh & Hk). destruct h as [|kv h]; [done|].
    change (server.authorized srv (JDict (kv :: h)))
      with (server.compare_digest (dict_get (kv :: h) "Authorization")
              (server.secret_key srv)).
    unfold dict_get. rewrite Hh. simpl. rewrite Hk. simpl.
    by rewrite bool_decide_eq_true_2.
Qed.

(** Headers that are absent, null or empty, or that hold another string
    under "Authorization", are answered 401 and reach no handler. *)
Lemma rejected_401 (srv : server.Server) (request : list (string * json)) :
  server.authorized srv (dict_get request "headers") = inr false ->
  server.handle_message srv (JDict request)
  = {| server.sent := [server.error_frame (dict_get request "nonce")
                         "Invalid or no token provided." 401];
       server.calls := []; server.raised := None |}.
Proof. intros H. unfold server.handle_message. rewrite H. apply reply_error. Qed.

Lemma wrong_token_rejected (srv : server.Server) (h : list (string * json)) (token : string) :
  assoc "Authorization" h = Some (JStr token) ->
  is_ascii token = true ->
  is_ascii (server.secret_key srv) = true ->
  token <> server.secret_key srv ->
  server.authorized srv (JDict h) = inr false.
Proof.
  intros Hh Ht Hk Hne. destruct h as [|kv h]; [done|].
  change (server.authorized srv (JDict (kv :: h)))
    with (server.compare_digest (dict_get (kv :: h) "Authorization")
            (server.secret_key srv)).
  unfold dict_get. rewrite Hh. simpl. rewrite Ht, Hk. simpl.
  by rewrite bool_decide_eq_false_2.
Qed.

(** C2, at the input where the code departs from it: headers that are
    present and non-empty but hold no "Authorization" entry.  Line 88 then
    hands None to [compare_digest], which raises TypeError; the exception
    leaves [handle_accept], so that no 401 envelope (nor any other frame)
    is sent for this request, and no later message on the connection is
    read. *)
Theorem missing_authorization_raises (srv : server.Server) (rest : list json) :
  let message :=
    JDict [("endpoint", JStr "echo"); ("data", JDict []);
           ("headers", JDict [("User-Agent", JStr "probe")]);
           ("nonce", JStr "n-1")] in
  server.serve srv (message :: rest)
  = {| server.sent := []; server.calls := [];
       server.raised :=
         Some (TypeError "unsupported operand types(s) or combination of types: 'NoneType' and 'str'") |}.
Proof. reflexivity. Qed.

(** ** Endpoint resolution (lines 99-106) *)

(** Line 99 in its own terms: the endpoint is falsy, or looking it up in
    the registry finds nothing. *)
Lemma unresolved_endpoint_400 (srv : server.Server) (request : list (string * json)) :
  server.authorized srv (dict_get request "headers") = inr true ->
  (truthy (dict_get request "endpoint") = false
   \/ server.find_endpoint (server.endpoints srv) (dict_get request "endpoint")
      = inr None) ->
  server.handle_message srv (JDict request)
  = {| server.sent := [server.error_frame (dict_get request "nonce")
                         "Invalid or no endpoint given." 400];
       server.calls := []; server.raised := None |}.
Proof.
  intros Hauth Hep. unfold server.handle_message. rewrite Hauth.
  destruct (truthy (dict_get request "endpoint")); simpl.
  - destruct Hep as [Hep|Hep]; [done|]. rewrite Hep. apply reply_error.
  - apply reply_error.
Qed.

(** The endpoints that line 99 does turn away: an authenticated request
    whose endpoint field is absent, is the empty string, or is a name
    that the live registry does not hold is answered with
    [{"error": "Invalid or no endpoint given.", "code": 400}] under the
    request's nonce, and no handler is awaited. *)
Theorem unknown_endpoint_400 (srv : server.Server) (request : list (string * json)) :
  server.authorized srv (dict_get request "headers") = inr true ->
  (assoc "endpoint" request = None
   \/ assoc "endpoint" request = Some (JStr "")
   \/ exists name, assoc "endpoint" request = Some (JStr name)
                   /\ server.endpoints srv !! name = None) ->
  server.handle_message srv (JDict request)
  = {| server.sent := [server.error_frame (dict_get request "nonce")
                         "Invalid or no endpoint given." 400];
       server.calls := []; server.raised := None |}.
Proof.
  intros Hauth Hep. apply unresolved_endpoint_400; [done|].
  destruct Hep as [Hep | [Hep | (name & Hep & Hname)]].
  - left. by rewrite (dict_get_absent _ _ Hep).
  - left. by rewrite (dict_get_present _ _ _ Hep).
  - right. rewrite (dict_get_present _ _ _ Hep). simpl. by rewrite Hname.
Qed.

Lemma unknown_endpoint_400_witness :
  server.handle_message demo_server
    (JDict (demo_request (JStr "nope") demo_headers))
  = {| server.sent := [server.error_frame (JStr "n-1")
                         "Invalid or no endpoint given." 400];
       server.calls := []; server.raised := None |}.
Proof.
  apply (unknown_endpoint_400 demo_server (demo_request (JStr "nope") demo_headers)).
  - reflexivity.
  - right. right. exists "nope". split; reflexivity.
Defined.

(** C3, at the input where the code departs from it: an authenticated
    request whose endpoint is a non-empty list.  The list is in no
    registry, but testing [endpoint not in self.endpoints] at line 99
    hashes it and raises TypeError; the exception leaves [handle_accept],
    so that no 400 envelope (nor any other frame) is sent, no handler is
    awaited, and no later message of the connection is read. *)
Theorem list_endpoint_unanswered (rest : list json) :
  server.authorized demo_server demo_headers = inr true
  /\ server.serve demo_server
       (JDict (demo_request (JList [JStr "nope"]) demo_headers) :: rest)
     = {| server.sent := []; server.calls := [];
          server.raised := Some (TypeError "unhashable type: 'list'") |}.
Proof. split; reflexivity. Qed.

(** ** Dispatch (lines 108-129) *)

(** What the loop body does once the request is let through and its
    endpoint is found. *)
Lemma dispatch (srv : server.Server) (request : list (string * json))
    (name : string) (func : server.handler) (d : json) :
  server.authorized srv (dict_get request "headers") = inr true ->
  assoc "endpoint" request = Some (JStr name) ->
  name <> "" ->
  server.endpoints srv !! name = Some func ->
  assoc "data" request = Some d ->
  let ctx := {| server.data := d; server.endpoint := JStr name |} in
  server.handle_message srv (JDict request)
  = match server.run func ctx with
    | server.Raises error =>
        server.reply (dict_get request "nonce")
          (server.error_body ("IPC route raised error of type " +:+ exn_type error) 500)
          [(func, ctx)]
    | server.Returns ret =>
        server.reply (dict_get request "nonce") ret [(func, ctx)]
    | server.Aborts error => server.crash [(func, ctx)] error
    end.
Proof.
  intros Hauth Hep Hne Hfunc Hdata ctx. unfold server.handle_message.
  rewrite Hauth. rewrite (dict_get_present _ _ _ Hep). simpl.
  rewrite bool_decide_eq_false_2 by done. simpl.
  by rewrite Hfunc, Hdata.
Qed.

(** C4.  When the handler of an authenticated request to a registered
    endpoint raises, the server answers under the request's nonce with
    code 500 and the text "IPC route raised error of type " followed by
    the class name of the exception: the frame is built from the class
    name alone, the message of the exception appears nowhere in it.  The
    loop then goes on to the next message of the connection. *)
Theorem handler_error_500 (srv : server.Server) (request : list (string * json))
    (name : string) (func : server.handler) (d : json) (error : exn)
    (rest : list json) :
  server.authorized srv (dict_get request "headers") = inr true ->
  assoc "endpoint" request = Some (JStr name) ->
  name <> "" ->
  server.endpoints srv !! name = Some func ->
  assoc "data" request = Some d ->
  server.run func {| server.data := d; server.endpoint := JStr name |}
  = server.Raises error ->
  let ctx := {| server.data := d; server.endpoint := JStr name |} in
  let frame := server.error_frame (dict_get request "nonce")
                 ("IPC route raised error of type " +:+ exn_type error) 500 in
  server.handle_message srv (JDict request)
  = {| server.sent := [frame]; server.calls := [(func, ctx)];
       server.raised := None |}
  /\ server.serve srv (JDict request :: rest)
     = {| server.sent := frame :: server.sent (server.serve srv rest);
          server.calls := (func, ctx) :: server.calls (server.serve srv rest);
          server.raised := server.raised (server.serve srv rest) |}.
Proof.
  intros Hauth Hep Hne Hfunc Hdata Hrun ctx frame.
  assert (server.handle_message srv (JDict request)
          = {| server.sent := [frame]; server.calls := [(func, ctx)];
               server.raised := None |}) as Hstep.
  { rewrite (dispatch srv request name func d) by done.
    cbv zeta. unfold ctx. rewrite Hrun. apply reply_error. }
  split; [exact Hstep|].
  rewrite serve_continues; by rewrite Hstep.
Qed.

Lemma handler_error_500_witness :
  server.sent (server.serve demo_server
                 [JDict (demo_request (JStr "fail") demo_headers);
                  JDict (demo_request (JStr "nope") demo_headers)])
  = [server.error_frame (JStr "n-1") "IPC route raised error of type ValueError" 500;
     server.error_frame (JStr "n-1") "Invalid or no endpoint given." 400].
Proof.
  pose proof (handler_error_500 demo_server
                (demo_request (JStr "fail") demo_headers) "fail" boom
                (JDict [("x", JInt 7)])
                (Exn "ValueError" "db password is hunter2")
                [JDict (demo_request (JStr "nope") demo_headers)]) as H.
  destruct H as [_ H]; [reflexivity | reflexivity | discriminate
                       | reflexivity | reflexivity | reflexivity |].
  rewrite H. reflexivity.
Defined.

(** C5, at the input where the code departs from it: a handler that
    returns a dictionary keyed by a tuple.  The encoder rejects the value,
    but the TypeError it raises ("keys must be str, int, float, bool or
    None, not tuple") does not pass the test of lines 135-137, which
    looks for the text of the other TypeError: the exception is dropped
    and nothing at all is sent for the request. *)
Lemma tuple_key_unanswered :
  let ctx := {| server.data := JDict [("x", JInt 7)];
                server.endpoint := JStr "grid" |} in
  server.endpoints demo_server !! "grid" = Some grid
  /\ server.run grid ctx = server.Returns (PDict [(KOther "tuple", PInt 3)])
  /\ server.send_json (PDict [(KOther "tuple", PInt 3)])
     = inl (TypeError "keys must be str, int, float, bool or None, not tuple")
  /\ server.handle_message demo_server
       (JDict (demo_request (JStr "grid") demo_headers))
     = {| server.sent := []; server.calls := [(grid, ctx)];
          server.raised := None |}.
Proof. repeat split; reflexivity. Qed.

(** The rejected values that lines 134-149 do answer: when the handler of
    an authenticated request to a registered endpoint returns a value on
    which the encoder raises "Object of type ... is not JSON
    serializable", the server answers under the request's nonce with code
    500 and the text advising to send only the data needed, and the loop
    goes on to the next message. *)
Theorem unserializable_return_500 (srv : server.Server)
    (request : list (string * json)) (name : string) (func : server.handler)
    (d : json) (ret : pyval) (cls : string) (rest : list json) :
  server.authorized srv (dict_get request "headers") = inr true ->
  assoc "endpoint" request = Some (JStr name) ->
  name <> "" ->
  server.endpoints srv !! name = Some func ->
  assoc "data" request = Some d ->
  server.run func {| server.data := d; server.endpoint := JStr name |}
  = server.Returns ret ->
  server.send_json ret = inl (not_serializable cls) ->
  let ctx := {| server.data := d; server.endpoint := JStr name |} in
  let frame := server.error_frame (dict_get request "nonce")
                 server.not_sendable 500 in
  server.handle_message srv (JDict request)
  = {| server.sent := [frame]; server.calls := [(func, ctx)];
       server.raised := None |}
  /\ server.serve srv (JDict request :: rest)
     = {| server.sent := frame :: server.sent (server.serve srv rest);
          server.calls := (func, ctx) :: server.calls (server.serve srv rest);
          server.raised := server.raised (server.serve srv rest) |}.
Proof.
  intros Hauth Hep Hne Hfunc Hdata Hrun Hret ctx frame.
  assert (server.handle_message srv (JDict request)
          = {| server.sent := [frame]; server.calls := [(func, ctx)];
               server.raised := None |}) as Hstep.
  { rewrite (dispatch srv request name func d) by done.
    cbv zeta. unfold ctx. rewrite Hrun. by apply reply_not_serializable with cls. }
  split; [exact Hstep|].
  rewrite serve_continues; by rewrite Hstep.
Qed.

Lemma unserializable_return_500_witness :
  server.sent (server.serve demo_server
                 [JDict (demo_request (JStr "member") demo_headers);
                  JDict (demo_request (JStr "echo") demo_headers)])
  = [server.error_frame (JStr "n-1") server.not_sendable 500;
     server.response_frame (JStr "n-1") (JDict [("x", JInt 7)])].
Proof.
  pose proof (unserializable_return_500 demo_server
                (demo_request (JStr "member") demo_headers) "member" member
                (JDict [("x", JInt 7)]) (PList [PInt 1; PObject "Member"])
                "Member"
                [JDict (demo_request (JStr "echo") demo_headers)]) as H.
  destruct H as [_ H]; [reflexivity | reflexivity | discriminate
                       | reflexivity | reflexivity | reflexivity
                       | reflexivity |].
  rewrite H. reflexivity.
Defined.

(** A key the encoder rejects: nothing is sent, and the loop goes on. *)
Lemma bad_key_return_dropped (srv : server.Server)
    (request : list (string * json)) (name : string) (func : server.handler)
    (d : json) (ret : pyval) (cls : string) :
  server.authorized srv (dict_get request "headers") = inr true ->
  assoc "endpoint" request = Some (JStr name) ->
  name <> "" ->
  server.endpoints srv !! name = Some func ->
  assoc "data" request = Some d ->
  server.run func {| server.data := d; server.endpoint := JStr name |}
  = server.Returns ret ->
  server.send_json ret = inl (bad_key cls) ->
  server.handle_message srv (JDict request)
  = {| server.sent := [];
       server.calls := [(func, {| server.data := d; server.endpoint := JStr name |})];
       server.raised := None |}.
Proof.
  intros Hauth Hep Hne Hfunc Hdata Hrun Hret.
  rewrite (dispatch srv request name func d) by done.
  cbv zeta. rewrite Hrun. by apply reply_bad_key with cls.
Qed.

(** ** The registry (lines 29-41 and 72-74) *)

(** [route] never files a function under the empty name. *)
Lemma route_no_empty_name (name : option string) (func : server.handler)
    (ROUTES : gmap string server.handler) :
  server.func_name func <> "" ->
  ROUTES !! "" = None ->
  server.route name func ROUTES !! "" = None.
Proof.
  intros Hf HR. unfold server.route.
  destruct name as [n|]; [case_bool_decide|]; by rewrite lookup_insert_ne.
Qed.

Lemma update_endpoints_no_empty_name (srv : server.Server)
    (ROUTES : gmap string server.handler) :
  ROUTES !! "" = None ->
  server.endpoints srv !! "" = None ->
  server.endpoints (fst (server.update_endpoints srv ROUTES)) !! "" = None.
Proof. intros HR Hs. simpl. by apply lookup_union_None_2. Qed.

(** Accepting a connection merges first and serves with the merged
    registry. *)
Lemma handle_accept_merges (srv : server.Server)
    (ROUTES : gmap string server.handler) (messages : list json) :
  server.handle_accept srv ROUTES messages
  = (fst (server.update_endpoints srv ROUTES), ∅,
     server.serve (fst (server.update_endpoints srv ROUTES)) messages).
Proof. reflexivity. Qed.

(** C9.  Merging at connection-accept is the union of the live registry
    and the pending routes in which the pending routes win: a name is
    resolved to its pending handler if it has one and to its live handler
    otherwise, so that every name of the live registry is still there
    afterwards; the pending set is left empty.  Registering twice under
    one name keeps the second handler, and [route] has no way to fail. *)
Theorem registry_merge (srv : server.Server) (ROUTES : gmap string server.handler) :
  let merged := server.endpoints (fst (server.update_endpoints srv ROUTES)) in
  (forall name,
      merged !! name = match ROUTES !! name with
                       | Some func => Some func
                       | None => server.endpoints srv !! name
                       end)
  /\ dom (server.endpoints srv) ⊆ dom merged
  /\ snd (server.update_endpoints srv ROUTES) = ∅
  /\ (forall name first second,
         name <> "" ->
         server.route (Some name) second (server.route (Some name) first ROUTES)
           !! name = Some second)
  /\ (forall first second,
         server.func_name first = server.func_name second ->
         server.route None second (server.route None first ROUTES)
           !! server.func_name second = Some second).
Proof.
  simpl. repeat split.
  - intros name. rewrite lookup_union.
    by destruct (ROUTES !! name), (server.endpoints srv !! name).
  - rewrite dom_union. set_solver.
  - intros name first second Hne. unfold server.route.
    rewrite !bool_decide_eq_false_2 by done. apply lookup_insert_eq.
  - intros first second _. unfold server.route. apply lookup_insert_eq.
Qed.

Lemma registry_merge_witness :
  server.endpoints demo_server !! "echo" = Some echo
  /\ server.endpoints
       (fst (server.update_endpoints demo_server
               (server.route (Some "echo") boom ∅))) !! "echo" = Some boom
  /\ server.route (Some "echo") boom (server.route (Some "echo") echo ∅)
       !! "echo" = Some boom.
Proof.
  pose proof (registry_merge demo_server (server.route (Some "echo") boom ∅))
    as (Hmerge & _ & _ & Hroute & _).
  split; [reflexivity|]. split.
  - rewrite Hmerge. reflexivity.
  - pose proof (registry_merge demo_server ∅) as (_ & _ & _ & Hlast & _).
    apply Hlast. discriminate.
Defined.

(** ** The client: timeout (lines 66-72) *)

Lemma wait_for_expired (fut : client.future) (t elapsed : Z) :
  t <= elapsed ->
  client.wait_for fut (Some t) elapsed = Some (inl (Exn "TimeoutError" "")).
Proof.
  intros Hle. unfold client.wait_for.
  by rewrite (proj2 (Z.leb_le t elapsed) Hle).
Qed.

Lemma wait_for_in_time (fut : client.future) (timeout : option Z) (elapsed : Z) :
  (forall t, timeout = Some t -> elapsed < t) ->
  client.wait_for fut timeout elapsed
  = match fut with
    | client.Done result => Some (inr result)
    | client.Pending => None
    end.
Proof.
  intros Hlt. unfold client.wait_for. destruct timeout as [t|]; [|done].
  by rewrite (proj2 (Z.leb_gt t elapsed) (Hlt t eq_refl)).
Qed.

(** Past the deadline the call returns [default_value] and lets go of its
    future. *)
Lemma request_end_expired (c : client.Client) (nonce : string)
    (fut : client.future) (t elapsed : Z) (default_value : option pyval) :
  client._requests c !! nonce = Some fut ->
  t <= elapsed ->
  client.request_end c nonce (Some t) default_value elapsed
  = Some (client.set_requests c (delete nonce (client._requests c)),
          inr (default PNone default_value)).
Proof.
  intros Hfut Hle. unfold client.request_end.
  by rewrite Hfut, (wait_for_expired fut t elapsed Hle).
Qed.

(** C6.  When the bound given by the caller has passed and the future of
    the call is still pending, [request] returns [default_value] (None if
    the caller gave none): it returns, it does not raise.  Returning
    touches neither the send queue nor the socket: the envelope, enqueued
    once by the first half of the call, is not enqueued or written
    again. *)
Theorem timeout_returns_default (c : client.Client) (nonce : string)
    (t elapsed : Z) (default_value : option pyval) :
  client._requests c !! nonce = Some client.Pending ->
  t <= elapsed ->
  exists c',
    client.request_end c nonce (Some t) default_value elapsed
    = Some (c', inr (default PNone default_value))
    /\ client._queue c' = client._queue c
    /\ client.wire c' = client.wire c
    /\ (default_value = None ->
        client.request_end c nonce (Some t) default_value elapsed
        = Some (c', inr PNone)).
Proof.
  intros Hpending Hle.
  rewrite (request_end_expired c nonce client.Pending t elapsed _ Hpending Hle).
  eexists. split; [reflexivity|]. repeat split; by intros ->.
Qed.

Lemma timeout_returns_default_witness :
  exists c',
    client.request_end
      (client.request_begin demo_client "echo" [("x", JInt 7)] "n-1")
      "n-1" (Some 15) (Some (PStr "offline")) 15
    = Some (c', inr (PStr "offline"))
    /\ client._queue c' = [client.payload demo_client "echo" [("x", JInt 7)] "n-1"]
    /\ client.wire c' = [].
Proof.
  destruct (timeout_returns_default
              (client.request_begin demo_client "echo" [("x", JInt 7)] "n-1")
              "n-1" 15 15 (Some (PStr "offline")))
    as (c' & Hret & Hqueue & Hwire & _); [reflexivity | lia |].
  exists c'. repeat split; [exact Hret | by rewrite Hqueue | by rewrite Hwire].
Defined.

(** The first half of the call enqueues its envelope once, at the back. *)
Lemma request_begin_queue (c : client.Client) (endpoint : string)
    (kwargs : list (string * json)) (nonce : string) :
  client._queue (client.request_begin c endpoint kwargs nonce)
  = client._queue c ++ [client.payload c endpoint kwargs nonce].
Proof. unfold client.request_begin. by destruct (client._session c). Qed.

(** While the bound has not passed, a pending call stays suspended. *)
Lemma request_end_waits (c : client.Client) (nonce : string)
    (timeout : option Z) (default_value : option pyval) (elapsed : Z) :
  client._requests c !! nonce = Some client.Pending ->
  (forall t, timeout = Some t -> elapsed < t) ->
  client.request_end c nonce timeout default_value elapsed = None.
Proof.
  intros Hpending Hlt. unfold client.request_end.
  by rewrite Hpending, (wait_for_in_time _ timeout elapsed Hlt).
Qed.

(** ** The client: control frames (lines 83-87) *)

(** C7, at a ping received on a freshly opened connection: line 84 calls
    [ping()], so that the frame written in reply is a ping, not a pong. *)
Theorem ping_answered_with_ping (secret host : string) (port : Z) :
  let c := client.init_sock (client.init secret host port) in
  client.receive_step c client.PING
  = client.set_wire c [(0%nat, client.PingFrame)].
Proof. reflexivity. Qed.

(** No step of the client ever writes a pong. *)
Lemma never_pongs (c : client.Client) (e : client.event) (ws : nat) :
  (ws, client.PongFrame) ∈ client.wire (client.react c e) ->
  (ws, client.PongFrame) ∈ client.wire c.
Proof.
  destruct e as [|recv|endpoint kwargs nonce]; simpl.
  - unfold client.send_step.
    destruct (client._sender c) as [[|]|]; try done.
    destruct (client._queue c) as [|p rest]; [done|].
    unfold client.write. simpl.
    destruct (client._websocket c), (client._session c) as [[|]|]; simpl; try done.
    rewrite elem_of_app, list_elem_of_singleton. by intros [?|?].
  - unfold client.receive_step.
    destruct (client._worker c) as [[|]|]; try done.
    destruct recv; try done.
    + unfold client.resolve.
      destruct document; try done.
      destruct (assoc "nonce" d) as [nonce|]; [|done].
      destruct (client.find_future _ nonce) as [|[fut|]]; simpl; try done.
      destruct nonce; try done.
      by destruct (client.set_result fut _).
    + unfold client.write.
      destruct (client._websocket c), (client._session c) as [[|]|]; simpl; try done.
      rewrite elem_of_app, list_elem_of_singleton. by intros [?|?].
  - unfold client.request_begin. by destruct (client._session c).
Qed.

(** ** The client: resolution (lines 94-106) *)

(** A response whose nonce has no future in the table is dropped. *)
Lemma late_response_dropped (c : client.Client) (nonce : string) (response : json) :
  client._requests c !! nonce = None ->
  client.receive_step c
    (client.TEXT (server.response_frame (JStr nonce) response)) = c.
Proof.
  intros Hnone. unfold client.receive_step.
  destruct (client._worker c) as [[|]|]; try done.
  unfold client.resolve, server.response_frame. simpl. by rewrite Hnone.
Qed.

(** C8, at two responses bearing the nonce of one pending call, taken in
    by the receive loop before the call resumes.  The first resolves the
    future.  On the second the future is still in the table and already
    done: [set_result] raises InvalidStateError, which line 101 does not
    catch.  The resolved value is unchanged, but the receive task has
    ended: no message is ever handled again. *)
Theorem second_response_kills_worker (secret host : string) (port : Z)
    (endpoint nonce : string) (kwargs : list (string * json))
    (first second : json) :
  let c := client.request_begin (client.init secret host port)
             endpoint kwargs nonce in
  let answer v := client.TEXT (server.response_frame (JStr nonce) v) in
  let c1 := client.receive_step c (answer first) in
  let c2 := client.receive_step c1 (answer second) in
  client._requests c1 !! nonce = Some (client.Done (loads first))
  /\ client._worker c1 = Some client.Running
  /\ client._requests c2 !! nonce = Some (client.Done (loads first))
  /\ client._worker c2
     = Some (client.Failed (Exn "InvalidStateError" "invalid state"))
  /\ forall recv, client.receive_step c2 recv = c2.
Proof.
  intros c answer c1 c2.
  assert (client._requests c1 !! nonce = Some (client.Done (loads first))
          /\ client._worker c1 = Some client.Running) as [Hdone Hrun].
  { unfold c1, c, answer, client.receive_step, client.resolve. simpl.
    rewrite lookup_insert_eq. simpl. by rewrite lookup_insert_eq. }
  assert (c2 = client.set_worker c1
                 (Some (client.Failed (Exn "InvalidStateError" "invalid state"))))
    as Hc2.
  { unfold c2, answer, client.receive_step. rewrite Hrun.
    unfold client.resolve. simpl. by rewrite Hdone. }
  repeat split; try done.
  - by rewrite Hc2.
  - by rewrite Hc2.
  - intros recv. by rewrite Hc2.
Qed.

(** ** The client after [close] (lines 108-117) *)

Lemma close_closed (c c0 : client.Client) :
  client.close c = inr c0 ->
  client.closed c0
  /\ client.sockets c0 = client.sockets c
  /\ client.wire c0 = client.wire c
  /\ client._queue c0 = client._queue c
  /\ client._requests c0 = client._requests c.
Proof.
  unfold client.close. destruct (client._session c); [|done].
  intros [= <-]. by repeat split.
Qed.

(** On a closed client the two loops are gone and [request] does not
    reconnect: whatever happens, the session stays closed, no socket is
    opened, nothing is written, nothing leaves the queue and no pending
    future is resolved. *)
Lemma react_closed (c : client.Client) (e : client.event) :
  client.closed c ->
  client.closed (client.react c e)
  /\ client.sockets (client.react c e) = client.sockets c
  /\ client.wire (client.react c e) = client.wire c
  /\ (forall p, p ∈ client._queue c -> p ∈ client._queue (client.react c e))
  /\ (forall n, client._requests c !! n = Some client.Pending ->
                client._requests (client.react c e) !! n = Some client.Pending).
Proof.
  intros (Hsession & Hworker & Hsender).
  destruct e as [|recv|endpoint kwargs nonce]; simpl.
  - unfold client.send_step. rewrite Hsender. by repeat split.
  - unfold client.receive_step. rewrite Hworker. by repeat split.
  - unfold client.request_begin. rewrite Hsession. simpl.
    repeat split; try done.
    + intros p Hp. apply elem_of_app. by left.
    + intros n Hn. destruct (decide (nonce = n)) as [->|Hne].
      * by rewrite lookup_insert_eq.
      * by rewrite lookup_insert_ne.
Qed.

Lemma run_closed (events : list client.event) (c : client.Client) :
  client.closed c ->
  client.closed (client.run c events)
  /\ client.sockets (client.run c events) = client.sockets c
  /\ client.wire (client.run c events) = client.wire c
  /\ (forall p, p ∈ client._queue c -> p ∈ client._queue (client.run c events))
  /\ (forall n, client._requests c !! n = Some client.Pending ->
                client._requests (client.run c events) !! n = Some client.Pending).
Proof.
  revert c. induction events as [|e events IH]; intros c Hc; [done|].
  destruct (react_closed c e Hc) as (Hc' & Hsockets & Hwire & Hqueue & Hpending).
  destruct (IH _ Hc') as (Hc'' & Hsockets' & Hwire' & Hqueue' & Hpending').
  unfold client.run in *. simpl.
  split; [exact Hc''|].
  split; [congruence|]. split; [congruence|]. split; auto.
Qed.

(** C10.  After [close], a call of [request] does not restore the
    connection: [init_sock] is skipped because the session attribute still
    holds the closed session, so that no socket is opened and both loops
    stay gone; whatever the other tasks do afterwards, the envelope stays
    in the queue unwritten and the future of the call stays pending, and
    once the bound has passed the call returns [default_value]. *)
Theorem request_after_close (c c0 : client.Client) (endpoint : string)
    (kwargs : list (string * json)) (nonce : string)
    (events : list client.event) (t elapsed : Z)
    (default_value : option pyval) :
  client.close c = inr c0 ->
  t <= elapsed ->
  let c1 := client.request_begin c0 endpoint kwargs nonce in
  let c2 := client.run c1 events in
  client._session c2 = Some client.Shut
  /\ client._worker c2 = None
  /\ client._sender c2 = None
  /\ client.sockets c2 = client.sockets c
  /\ client.wire c2 = client.wire c
  /\ client.payload c0 endpoint kwargs nonce ∈ client._queue c2
  /\ client._requests c2 !! nonce = Some client.Pending
  /\ exists c3,
       client.request_end c2 nonce (Some t) default_value elapsed
       = Some (c3, inr (default PNone default_value)).
Proof.
  intros Hclose Hle c1 c2.
  destruct (close_closed c c0 Hclose) as (Hc0 & Hsockets & Hwire & _ & _).
  destruct (react_closed c0 (client.Request endpoint kwargs nonce) Hc0)
    as (Hc1 & Hsockets1 & Hwire1 & _ & _).
  change (client.react c0 (client.Request endpoint kwargs nonce)) with c1 in *.
  destruct (run_closed events c1 Hc1)
    as ((Hsession & Hworker & Hsender) & Hsockets2 & Hwire2 & Hqueue & Hpending).
  fold c2 in Hsession, Hworker, Hsender, Hsockets2, Hwire2, Hqueue, Hpending.
  assert (client._requests c2 !! nonce = Some client.Pending) as Hnonce.
  { apply Hpending. unfold c1, client.request_begin.
    destruct (client._session c0); simpl; by rewrite lookup_insert_eq. }
  repeat split; try done; try congruence.
  - apply Hqueue. unfold c1. rewrite request_begin_queue.
    apply elem_of_app. right. by apply list_elem_of_singleton.
  - rewrite (request_end_expired c2 nonce client.Pending t elapsed _ Hnonce Hle).
    eauto.
Qed.

Lemma request_after_close_witness :
  let c := client.init_sock demo_client in
  let c0 := client.set_sender
              (client.set_worker (client.set_session c (Some client.Shut)) None)
              None in
  let c2 := client.run (client.request_begin c0 "echo" [] "n-2")
              [client.Send;
               client.Receive (client.TEXT (server.response_frame (JStr "n-2") (JInt 1)));
               client.Receive client.CLOSED;
               client.Send] in
  client.sockets c2 = 1%nat
  /\ client.wire c2 = []
  /\ exists c3, client.request_end c2 "n-2" (Some 15) None 20 = Some (c3, inr PNone).
Proof.
  intros c c0 c2.
  destruct (request_after_close c c0 "echo" [] "n-2"
              [client.Send;
               client.Receive (client.TEXT (server.response_frame (JStr "n-2") (JInt 1)));
               client.Receive client.CLOSED;
               client.Send] 15 20 None)
    as (_ & _ & _ & Hsockets & Hwire & _ & _ & Hret); [reflexivity | lia |].
  split; [exact Hsockets|]. split; [exact Hwire | exact Hret].
Defined.

(** ** One call, end to end *)

(** The envelope built by the client passes the test of line 87 on a
    server that holds the same secret, when that secret is ASCII. *)
Lemma payload_authorized (srv : server.Server) (c : client.Client) :
  client.secret_key c = server.secret_key srv ->
  is_ascii (server.secret_key srv) = true ->
  server.authorized srv (JDict [("Authorization", JStr (client.secret_key c))])
  = inr true.
Proof.
  intros Hsecret Hascii. apply authorized_iff. eexists. split; [done|].
  simpl. by rewrite Hsecret.
Qed.


Lemma send_step_writes (c : client.Client) (p : json) (rest : list json) (ws : nat) :
  client._sender c = Some client.Running ->
  client._queue c = p :: rest ->
  client._websocket c = Some ws ->
  client._session c = Some client.Live ->
  client.send_step c
  = client.set_wire (client.set_queue c rest)
      (client.wire c ++ [(ws, client.JsonFrame p)]).
Proof.
  intros Hsender Hqueue Hws Hsession. unfold client.send_step, client.write.
  rewrite Hsender, Hqueue. simpl. by rewrite Hws, Hsession.
Qed.

(** A response is matched to its call by the nonce, and to nothing else. *)
Lemma receive_resolves (c : client.Client) (nonce : string) (response : json) :
  client._worker c = Some client.Running ->
  client._requests c !! nonce = Some client.Pending ->
  client.receive_step c
    (client.TEXT (server.response_frame (JStr nonce) response))
  = client.set_requests c
      (<[nonce := client.Done (loads response)]> (client._requests c)).
Proof.
  intros Hworker Hpending. unfold client.receive_step. rewrite Hworker.
  unfold client.resolve, server.response_frame. simpl. by rewrite Hpending.
Qed.

Lemma request_end_done (c : client.Client) (nonce : string) (result : pyval)
    (timeout : option Z) (default_value : option pyval) (elapsed : Z) :
  client._requests c !! nonce = Some (client.Done result) ->
  (forall t, timeout = Some t -> elapsed < t) ->
  client.request_end c nonce timeout default_value elapsed
  = Some (client.set_requests c (delete nonce (client._requests c)), inr result).
Proof.
  intros Hdone Hlt. unfold client.request_end.
  by rewrite Hdone, (wait_for_in_time _ timeout elapsed Hlt).
Qed.

(** The state in which the first half of [request] leaves a ready client. *)
Lemma request_begin_ready (c : client.Client) (endpoint : string)
    (kwargs : list (string * json)) (nonce : string) :
  client.ready c ->
  let c1 := client.request_begin c endpoint kwargs nonce in
  client._sender c1 = Some client.Running
  /\ client._worker c1 = Some client.Running
  /\ client._session c1 = Some client.Live
  /\ is_Some (client._websocket c1)
  /\ client._queue c1 = [client.payload c endpoint kwargs nonce]
  /\ client._requests c1 = <[nonce := client.Pending]> (client._requests c)
  /\ client.wire c1 = client.wire c.
Proof.
  intros (Hqueue & Hconn). unfold client.request_begin.
  destruct Hconn as [(Hs & Hw & Hse) | (Hs & Hws & Hw & Hse)];
    rewrite Hs; simpl; rewrite ?Hw, ?Hse, Hqueue; by repeat split.
Qed.

(** The client up to the resumption of the call, given what the server
    sent in answer to the envelope: nothing, or one frame under the
    nonce. *)
Lemma call_steps (srv : server.Server) (c : client.Client)
    (endpoint : string) (timeout : option Z) (default_value : option pyval)
    (kwargs : list (string * json)) (nonce : string) (elapsed : Z)
    (frames : list json) (fut : client.future) :
  client.ready c ->
  server.sent (server.serve srv [client.payload c endpoint kwargs nonce])
  = frames ->
  (frames = [] /\ fut = client.Pending
   \/ exists j, frames = [server.response_frame (JStr nonce) j]
                /\ fut = client.Done (loads j)) ->
  exists c3,
    call srv c endpoint timeout default_value kwargs nonce elapsed
    = client.request_end c3 nonce timeout default_value elapsed
    /\ client._requests c3 = <[nonce := fut]> (client._requests c).
Proof.
  intros Hready Hsent Hframes. unfold call.
  destruct (request_begin_ready c endpoint kwargs nonce Hready)
    as (Hsender & Hworker & Hsession & [ws Hws] & Hqueue & Hrequests & Hwire).
  set (c1 := client.request_begin c endpoint kwargs nonce) in *.
  rewrite Hqueue. simpl Nat.iter.
  rewrite (send_step_writes c1 _ [] ws) by done.
  cbn [client.wire client.set_wire]. rewrite Hwire, drop_app_length.
  change (documents [(ws, client.JsonFrame (client.payload c endpoint kwargs nonce))])
    with [client.payload c endpoint kwargs nonce].
  rewrite Hsent.
  destruct Hframes as [[-> ->] | (j & -> & ->)].
  - change (client.run ?x (_ <$> [])) with x.
    eexists. split; [reflexivity|].
    cbn [client._requests client.set_wire client.set_queue]. exact Hrequests.
  - change (client.run ?x (_ <$> [?f]))
      with (client.receive_step x (client.TEXT f)).
    rewrite receive_resolves;
      [|done|cbn [client._requests client.set_wire client.set_queue];
        by rewrite Hrequests, lookup_insert_eq].
    eexists. split; [reflexivity|].
    cbn [client._requests client.set_requests client.set_wire client.set_queue].
    rewrite Hrequests. apply insert_insert_eq.
Qed.

(** A call on a ready client returns what the one frame sent in answer to
    its envelope carries, when that frame comes before the deadline; the
    futures of other calls are as they were. *)
Lemma call_delivers (srv : server.Server) (c : client.Client)
    (endpoint : string) (timeout : option Z) (default_value : option pyval)
    (kwargs : list (string * json)) (nonce : string) (elapsed : Z) (j : json) :
  client.ready c ->
  server.sent (server.serve srv [client.payload c endpoint kwargs nonce])
  = [server.response_frame (JStr nonce) j] ->
  (forall t, timeout = Some t -> elapsed < t) ->
  exists c',
    call srv c endpoint timeout default_value kwargs nonce elapsed
    = Some (c', inr (loads j))
    /\ forall other, other <> nonce ->
         client._requests c' !! other = client._requests c !! other.
Proof.
  intros Hready Hsent Hlt.
  destruct (call_steps srv c endpoint timeout default_value kwargs nonce elapsed
              _ (client.Done (loads j)) Hready Hsent) as (c3 & -> & Hrequests);
    [right; by eexists|].
  rewrite (request_end_done c3 nonce (loads j));
    [|by rewrite Hrequests, lookup_insert_eq|done].
  eexists. split; [reflexivity|].
  intros other Hother. cbn [client._requests client.set_requests].
  rewrite Hrequests, lookup_delete_ne by done. by rewrite lookup_insert_ne.
Qed.




(** * Further properties of the server *)

(** ** The send phase never ends the loop *)

(** An exception of the encoder that is not a TypeError leaves [reply]. *)
Lemma reply_raises (nonce : json) (body : pyval) (e : exn) calls :
  dumps body = inl e ->
  is_TypeError e = false ->
  server.reply nonce body calls = server.crash calls e.
Proof.
  intros He Hty. unfold server.reply. by rewrite send_envelope, He, Hty.
Qed.

(** Whatever the body, [reply] keeps the record of the handlers awaited
    and writes nothing or one envelope under the nonce it was given; it
    raises only what the encoder raised on the body, and never a
    TypeError. *)
Lemma reply_total (nonce : json) (body : pyval) calls :
  server.calls (server.reply nonce body calls) = calls
  /\ (server.sent (server.reply nonce body calls) = []
      \/ exists response,
           server.sent (server.reply nonce body calls)
           = [server.response_frame nonce response])
  /\ (forall e, server.raised (server.reply nonce body calls) = Some e ->
                dumps body = inl e /\ is_TypeError e = false).
Proof.
  destruct (dumps body) as [e|j] eqn:E.
  - destruct (dumps_raises body e E) as [[cls [-> | ->]] | ->].
    + rewrite (reply_not_serializable nonce body cls calls E).
      split; [done|]. split; [right; by eexists | done].
    + rewrite (reply_bad_key nonce body cls calls E).
      split; [done|]. split; [by left | done].
    + rewrite (reply_raises nonce body _ calls E) by done.
      split; [done|]. split; [by left|]. by intros ? [= <-].
  - rewrite (reply_sends nonce j body calls E).
    split; [done|]. split; [right; by eexists | done].
Qed.

Lemma reply_calls (nonce : json) (body : pyval) calls :
  server.calls (server.reply nonce body calls) = calls.
Proof. apply reply_total. Qed.

Lemma reply_sent (nonce : json) (body : pyval) calls :
  server.sent (server.reply nonce body calls) = []
  \/ exists response,
       server.sent (server.reply nonce body calls)
       = [server.response_frame nonce response].
Proof. apply reply_total. Qed.

(** The ways through the loop body: an exception before any handler is
    awaited, a reply without a handler, or the one handler found for the
    request and then a reply or what the handler let out. *)
Lemma handle_message_cases (srv : server.Server) (request : list (string * json)) :
  (exists e, server.handle_message srv (JDict request) = server.crash [] e)
  \/ (exists body,
        server.handle_message srv (JDict request)
        = server.reply (dict_get request "nonce") body [])
  \/ (exists name func d,
        server.authorized srv (dict_get request "headers") = inr true
        /\ name <> ""
        /\ dict_get request "endpoint" = JStr name
        /\ server.endpoints srv !! name = Some func
        /\ assoc "data" request = Some d
        /\ let ctx := {| server.data := d; server.endpoint := JStr name |} in
           (exists body,
              server.handle_message srv (JDict request)
              = server.reply (dict_get request "nonce") body [(func, ctx)]
              /\ (server.run func ctx = server.Returns body
                  \/ exists error msg code,
                       server.run func ctx = server.Raises error
                       /\ body = server.error_body msg code))
           \/ (exists e,
                 server.run func ctx = server.Aborts e
                 /\ server.handle_message srv (JDict request)
                    = server.crash [(func, ctx)] e)).
Proof.
  unfold server.handle_message.
  destruct (server.authorized srv _) as [e|[|]] eqn:Hauth; [by eauto| |by eauto].
  destruct (dict_get request "endpoint") as [|b|z|name|l|d] eqn:Hep; simpl;
    [by eauto| | | | | ].
  - destruct b; simpl; by eauto.
  - destruct (negb (z =? 0)); simpl; by eauto.
  - case_bool_decide as Hname; simpl; [by eauto|].
    destruct (server.endpoints srv !! name) as [func|] eqn:Hfunc; [|by eauto].
    destruct (assoc "data" request) as [d|] eqn:Hdata; [|by eauto].
    right. right. exists name, func, d. repeat split; try done.
    destruct (server.run func _) as [ret|error|error] eqn:Hrun.
    + left. exists ret. split; [done|]. by left.
    + left. eexists. split; [done|]. right. by eauto.
    + right. by eauto.
  - destruct (negb (bool_decide (l = []))); simpl; by eauto.
  - destruct d; simpl; by eauto.
Qed.

(** At most one frame per message, under the nonce of the message. *)
Lemma sent_shape (srv : server.Server) (request : list (string * json)) :
  server.sent (server.handle_message srv (JDict request)) = []
  \/ exists response,
       server.sent (server.handle_message srv (JDict request))
       = [server.response_frame (dict_get request "nonce") response].
Proof.
  destruct (handle_message_cases srv request)
    as [[e ->] | [[body ->] | (name & func & d & _ & _ & _ & _ & _ & Hrun)]].
  - by left.
  - apply reply_sent.
  - destruct Hrun as [(body & -> & _) | (e & _ & ->)];
      [apply reply_sent | by left].
Qed.

(** X1.  Handling one message writes at most one frame, and a frame that
    is written is an envelope under the nonce of that message (null when
    the message has none). *)
Theorem one_reply_under_nonce (srv : server.Server) (request : list (string * json)) :
  server.sent (server.handle_message srv (JDict request)) = []
  \/ exists response,
       server.sent (server.handle_message srv (JDict request))
       = [server.response_frame (dict_get request "nonce") response].
Proof. apply sent_shape. Qed.

(** X2.  A handler is awaited at most once per message, and only for a
    request that passed the test of line 87 and whose endpoint is a
    non-empty name under which the live registry holds that very handler;
    it is given the data and the endpoint of the request. *)
Theorem dispatch_sound (srv : server.Server) (request : list (string * json)) :
  server.calls (server.handle_message srv (JDict request)) = []
  \/ exists name func d,
       server.authorized srv (dict_get request "headers") = inr true
       /\ name <> ""
       /\ dict_get request "endpoint" = JStr name
       /\ server.endpoints srv !! name = Some func
       /\ assoc "data" request = Some d
       /\ server.calls (server.handle_message srv (JDict request))
          = [(func, {| server.data := d; server.endpoint := JStr name |})].
Proof.
  destruct (handle_message_cases srv request)
    as [[e ->] | [[body ->] | (name & func & d & ? & ? & ? & ? & ? & Hrun)]].
  - by left.
  - left. apply reply_calls.
  - right. exists name, func, d. repeat split; try done.
    destruct Hrun as [(body & -> & _) | (e & _ & ->)];
      [apply reply_calls | done].
Qed.

(** X3.  Serving a run of messages followed by another is serving the
    first run and then, unless an exception ended the loop, the second:
    frames and handler calls come in message order, and nothing after a
    raising message is read. *)
Theorem serve_app (srv : server.Server) (first second : list json) :
  server.serve srv (first ++ second)
  = match server.raised (server.serve srv first) with
    | Some _ => server.serve srv first
    | None =>
        {| server.sent := server.sent (server.serve srv first)
                          ++ server.sent (server.serve srv second);
           server.calls := server.calls (server.serve srv first)
                           ++ server.calls (server.serve srv second);
           server.raised := server.raised (server.serve srv second) |}
    end.
Proof.
  induction first as [|m first IH].
  - simpl. by destruct (server.serve srv second).
  - change ((m :: first) ++ second) with (m :: (first ++ second)).
    destruct (server.raised (server.handle_message srv m)) as [e|] eqn:Hm.
    + rewrite !(serve_stops srv m _ e Hm). by rewrite Hm.
    + rewrite !(serve_continues srv m _ Hm), IH.
      cbn [server.raised server.sent server.calls].
      destruct (server.raised (server.serve srv first)) eqn:Hfirst;
        [by rewrite Hfirst|].
      cbn [server.raised server.sent server.calls]. by rewrite !app_assoc.
Qed.

(** X4.  When the loop ends on a message for which a handler was
    awaited, either the handler raised something that [except Exception]
    does not catch, or it returned a value on which the encoder raised
    something other than a TypeError.  An exception that
    [except Exception] catches, a value the encoder accepts and a
    TypeError of the encoder never end the loop. *)
Theorem loop_ends_after_handler_only_by (srv : server.Server)
    (request : list (string * json)) (e : exn) :
  server.calls (server.handle_message srv (JDict request)) <> [] ->
  server.raised (server.handle_message srv (JDict request)) = Some e ->
  exists func ctx,
    server.calls (server.handle_message srv (JDict request)) = [(func, ctx)]
    /\ (server.run func ctx = server.Aborts e
        \/ exists ret,
             server.run func ctx = server.Returns ret
             /\ server.send_json ret = inl e
             /\ is_TypeError e = false).
Proof.
  destruct (handle_message_cases srv request)
    as [[e' ->] | [[body ->] | (name & func & d & _ & _ & _ & _ & _ & Hrun)]].
  - done.
  - by rewrite reply_calls.
  - intros _ Hraised. eexists func, _.
    destruct Hrun as [(body & Hhm & Hbody) | (e' & Hrun & Hhm)];
      rewrite Hhm in *.
    + split; [apply reply_calls|].
      destruct (reply_total (dict_get request "nonce") body
                  [(func, {| server.data := d; server.endpoint := JStr name |})])
        as (_ & _ & Honly).
      destruct (Honly e Hraised) as [He Hty].
      destruct Hbody as [Hret | (error & msg & code & _ & ->)].
      * right. by exists body.
      * done.
    + split; [done|]. left. simpl in Hraised. by simplify_eq.
Qed.

Lemma loop_ends_after_handler_only_by_witness :
  let loop : server.handler :=
    {| server.func_name := "loop";
       server.run := fun _ => server.Returns (PList [PInt 1; PCyclic]) |} in
  let srv := fst (server.update_endpoints
                    (server.init "s3cret" "localhost" 8765)
                    (server.route None loop ∅)) in
  exists func ctx,
    server.calls (server.handle_message srv
                    (JDict (demo_request (JStr "loop") demo_headers)))
    = [(func, ctx)]
    /\ (server.run func ctx
        = server.Aborts (ValueError "Circular reference detected")
        \/ exists ret,
             server.run func ctx = server.Returns ret
             /\ server.send_json ret
                = inl (ValueError "Circular reference detected")
             /\ is_TypeError (ValueError "Circular reference detected") = false).
Proof.
  intros loop srv.
  apply (loop_ends_after_handler_only_by srv
           (demo_request (JStr "loop") demo_headers)
           (ValueError "Circular reference detected")).
  - discriminate.
  - reflexivity.
Defined.

(** ** The outcomes of the authentication test *)

Lemma authorized_falsy (srv : server.Server) (headers : json) :
  truthy headers = false -> server.authorized srv headers = inr false.
Proof. intros H. unfold server.authorized. by rewrite H. Qed.

Lemma authorized_truthy (srv : server.Server) (headers : json) :
  truthy headers = true ->
  server.authorized srv headers
  = bind_exn (server.get_attr headers "Authorization")
      (fun a => server.compare_digest a (server.secret_key srv)).
Proof. intros H. unfold server.authorized. by rewrite H. Qed.

(** X5.  The test of line 87 turns a request away (401) exactly when its
    headers are falsy (absent, null, empty, zero, false), or are an
    object holding under "Authorization" an ASCII string other than the
    secret, the secret being ASCII too; it raises exactly when the headers
    are truthy and hold under "Authorization" no string, or a string with
    a non-ASCII character, or when the secret has one. *)
Theorem authorization_outcomes (srv : server.Server) (headers : json) :
  (server.authorized srv headers = inr false
   <-> truthy headers = false
       \/ exists h token,
            headers = JDict h
            /\ assoc "Authorization" h = Some (JStr token)
            /\ is_ascii token = true
            /\ is_ascii (server.secret_key srv) = true
            /\ token <> server.secret_key srv)
  /\ ((exists e, server.authorized srv headers = inl e)
      <-> truthy headers = true
          /\ forall h token,
               headers = JDict h ->
               assoc "Authorization" h = Some (JStr token) ->
               is_ascii token && is_ascii (server.secret_key srv) = false).
Proof.
  destruct (truthy headers) eqn:Htruthy.
  - rewrite (authorized_truthy srv headers Htruthy).
    destruct headers as [|b|z|s|l|h]; simpl;
      try (split; split;
           [done | by intros [?|(? & ? & ? & _)]
           | by intros _ | by eauto]).
    unfold dict_get, server.compare_digest.
    destruct (assoc "Authorization" h) as [[|b|z|token|l|d]|] eqn:Hget; simpl;
      try (split; split;
           [done | intros [?|(? & ? & [= <-] & ? & _)]; congruence
           | intros _; split; [done|]; intros ? ? [= <-]; congruence
           | by eauto]).
    destruct (is_ascii token && is_ascii (server.secret_key srv)) eqn:Hascii.
    + apply andb_prop in Hascii as Hboth. destruct Hboth as [Ht Hk].
      split; split.
      * intros [= Hne%bool_decide_eq_false]. right. by exists h, token.
      * intros [?|(h' & token' & [= <-] & Hget' & _ & _ & Hne)]; [done|].
        rewrite Hget in Hget'. simplify_eq. by rewrite bool_decide_eq_false_2.
      * by intros [e ?].
      * intros [_ Hnone]. specialize (Hnone h token eq_refl Hget). congruence.
    + split; split.
      * done.
      * intros [?|(h' & token' & [= <-] & Hget' & Ht & Hk & _)]; [done|].
        rewrite Hget in Hget'. simplify_eq. by rewrite Ht, Hk in Hascii.
      * intros _. split; [done|]. intros h' token' [= <-] Hget'.
        rewrite Hget in Hget'. by simplify_eq.
      * by eauto.
  - rewrite (authorized_falsy srv headers Htruthy). split; split.
    + by left.
    + done.
    + by intros [e ?].
    + by intros [? _].
Qed.

(** ** Requests that end the loop *)

(** X6.  An authenticated request to a registered endpoint that carries
    no "data" entry raises KeyError at line 110: the handler is not
    awaited, nothing is sent, and the rest of the connection's messages
    are not read. *)
Theorem missing_data_ends_loop (srv : server.Server)
    (request : list (string * json)) (name : string) (func : server.handler)
    (rest : list json) :
  server.authorized srv (dict_get request "headers") = inr true ->
  assoc "endpoint" request = Some (JStr name) ->
  name <> "" ->
  server.endpoints srv !! name = Some func ->
  assoc "data" request = None ->
  server.serve srv (JDict request :: rest)
  = {| server.sent := []; server.calls := [];
       server.raised := Some (KeyError "'data'") |}.
Proof.
  intros Hauth Hep Hne Hfunc Hdata.
  assert (server.handle_message srv (JDict request)
          = server.crash [] (KeyError "'data'")) as Hstep.
  { unfold server.handle_message. rewrite Hauth.
    rewrite (dict_get_present _ _ _ Hep). simpl.
    rewrite bool_decide_eq_false_2 by done. simpl. by rewrite Hfunc, Hdata. }
  rewrite (serve_stops srv _ rest (KeyError "'data'")); by rewrite Hstep.
Qed.

Lemma missing_data_ends_loop_witness :
  server.serve demo_server
    [JDict [("endpoint", JStr "echo"); ("headers", demo_headers);
            ("nonce", JStr "n-1")];
     JDict (demo_request (JStr "echo") demo_headers)]
  = {| server.sent := []; server.calls := [];
       server.raised := Some (KeyError "'data'") |}.
Proof.
  apply (missing_data_ends_loop demo_server _ "echo" echo);
    [reflexivity | reflexivity | discriminate | reflexivity | reflexivity].
Defined.

(** X7.  An authenticated request whose endpoint is a non-empty list or
    object raises TypeError at line 99, where the endpoint is looked up
    in the registry: nothing is sent, no handler is awaited, and the rest
    of the connection's messages are not read. *)
Theorem unhashable_endpoint_ends_loop (srv : server.Server)
    (request : list (string * json)) (rest : list json) :
  server.authorized srv (dict_get request "headers") = inr true ->
  truthy (dict_get request "endpoint") = true ->
  type_name (dict_get request "endpoint") = "list"
  \/ type_name (dict_get request "endpoint") = "dict" ->
  server.serve srv (JDict request :: rest)
  = {| server.sent := []; server.calls := [];
       server.raised :=
         Some (TypeError ("unhashable type: '"
                          +:+ type_name (dict_get request "endpoint")
                          +:+ "'")) |}.
Proof.
  intros Hauth Htruthy Htype.
  set (e := TypeError ("unhashable type: '"
                       +:+ type_name (dict_get request "endpoint") +:+ "'")).
  assert (server.handle_message srv (JDict request) = server.crash [] e)
    as Hstep.
  { unfold server.handle_message. rewrite Hauth, Htruthy. simpl. subst e.
    destruct (dict_get request "endpoint"); simpl in *;
      by destruct Htype. }
  rewrite (serve_stops srv _ rest e); by rewrite Hstep.
Qed.

Lemma unhashable_endpoint_ends_loop_witness :
  server.serve demo_server
    [JDict (demo_request (JList [JStr "echo"]) demo_headers);
     JDict (demo_request (JStr "echo") demo_headers)]
  = {| server.sent := []; server.calls := [];
       server.raised := Some (TypeError "unhashable type: 'list'") |}.
Proof.
  apply (unhashable_endpoint_ends_loop demo_server
           (demo_request (JList [JStr "echo"]) demo_headers));
    [reflexivity | reflexivity | by left].
Defined.

(** ** The server on the client's envelopes *)

(** Serving one message is handling it. *)
Lemma serve_single (srv : server.Server) (message : json) :
  server.serve srv [message] = server.handle_message srv message.
Proof.
  simpl. destruct (server.handle_message srv message) as [sent calls [e|]] eqn:E;
    simpl; [done|]. by rewrite !app_nil_r.
Qed.

(** How the loop body treats an envelope built by [request]: the
    comparison of the secrets raises when one of them is not ASCII;
    otherwise the body replies with an error, or finds the handler, which
    returns a value to reply with or raises past the loop. *)
Lemma handle_payload (srv : server.Server) (c : client.Client)
    (endpoint : string) (kwargs : list (string * json)) (nonce : string) :
  let message := client.payload c endpoint kwargs nonce in
  let ctx := {| server.data := JDict kwargs;
                server.endpoint := JStr endpoint |} in
  (is_ascii (client.secret_key c) && is_ascii (server.secret_key srv) = false
   /\ exists e, server.handle_message srv message = server.crash [] e)
  \/ (exists msg code calls,
        server.handle_message srv message
        = server.reply (JStr nonce) (server.error_body msg code) calls)
  \/ (exists func,
        server.endpoints srv !! endpoint = Some func
        /\ ((exists ret,
               server.run func ctx = server.Returns ret
               /\ server.handle_message srv message
                  = server.reply (JStr nonce) ret [(func, ctx)])
            \/ (exists e,
                  server.run func ctx = server.Aborts e
                  /\ server.handle_message srv message
                     = server.crash [(func, ctx)] e))).
Proof.
  intros message ctx. subst message ctx.
  unfold client.payload, server.handle_message.
  set (request := [("endpoint", JStr endpoint); ("data", JDict kwargs);
                   ("headers", JDict [("Authorization", JStr (client.secret_key c))]);
                   ("nonce", JStr nonce)]).
  change (dict_get request "headers")
    with (JDict [("Authorization", JStr (client.secret_key c))]).
  change (dict_get request "endpoint") with (JStr endpoint).
  change (dict_get request "nonce") with (JStr nonce).
  change (assoc "data" request) with (Some (JDict kwargs)).
  change (server.authorized srv
            (JDict [("Authorization", JStr (client.secret_key c))]))
    with (server.compare_digest (JStr (client.secret_key c))
            (server.secret_key srv)).
  unfold server.compare_digest.
  destruct (is_ascii (client.secret_key c) && is_ascii (server.secret_key srv));
    [|left; by eauto].
  right. destruct (bool_decide _); [|left; by eauto].
  simpl. destruct (negb (bool_decide (endpoint = ""))); simpl; [|left; by eauto].
  destruct (server.endpoints srv !! endpoint) as [func|]; [|left; by eauto].
  destruct (server.run func _) as [ret|error|error] eqn:Hrun.
  - right. exists func. split; [done|]. left. by eauto.
  - left. by eauto.
  - right. exists func. split; [done|]. right. by eauto.
Qed.

(** X8.  An envelope built by [request] ends the server's loop in three
    ways only: the secret of the client or of the server has a non-ASCII
    character; the handler raises something that [except Exception] does
    not catch; the handler returns a value on which the encoder raises
    something other than a TypeError. *)
Theorem client_envelope_ends_loop_only_by (srv : server.Server)
    (c : client.Client) (endpoint : string) (kwargs : list (string * json))
    (nonce : string) (e : exn) :
  server.raised
    (server.handle_message srv (client.payload c endpoint kwargs nonce))
  = Some e ->
  is_ascii (client.secret_key c) && is_ascii (server.secret_key srv) = false
  \/ exists func,
       server.endpoints srv !! endpoint = Some func
       /\ let ctx := {| server.data := JDict kwargs;
                        server.endpoint := JStr endpoint |} in
          server.run func ctx = server.Aborts e
          \/ exists ret,
               server.run func ctx = server.Returns ret
               /\ server.send_json ret = inl e
               /\ is_TypeError e = false.
Proof.
  intros Hraised.
  destruct (handle_payload srv c endpoint kwargs nonce)
    as [[Hascii _] | [(msg & code & calls & Hhm)
                     | (func & Hfunc & [(ret & Hrun & Hhm) | (e' & Hrun & Hhm)])]].
  - by left.
  - rewrite Hhm in Hraised.
    by destruct (reply_total (JStr nonce) (server.error_body msg code) calls)
      as (_ & _ & Honly); destruct (Honly e Hraised).
  - right. exists func. split; [done|]. right. exists ret.
    rewrite Hhm in Hraised.
    destruct (reply_total (JStr nonce) ret
                [(func, {| server.data := JDict kwargs;
                           server.endpoint := JStr endpoint |})])
      as (_ & _ & Honly).
    by destruct (Honly e Hraised).
  - right. exists func. split; [done|]. left.
    rewrite Hhm in Hraised. simpl in Hraised. by simplify_eq.
Qed.

Lemma client_envelope_ends_loop_only_by_witness :
  is_ascii (client.secret_key umlaut_client)
  && is_ascii (server.secret_key umlaut_server) = false
  \/ exists func,
       server.endpoints umlaut_server !! "echo" = Some func
       /\ let ctx := {| server.data := JDict [];
                        server.endpoint := JStr "echo" |} in
          server.run func ctx
          = server.Aborts (TypeError "comparing strings with non-ASCII characters is not supported")
          \/ exists ret,
               server.run func ctx = server.Returns ret
               /\ server.send_json ret
                  = inl (TypeError "comparing strings with non-ASCII characters is not supported")
               /\ is_TypeError (TypeError "comparing strings with non-ASCII characters is not supported")
                  = false.
Proof.
  apply (client_envelope_ends_loop_only_by umlaut_server umlaut_client "echo"
           [] "n-1").
  reflexivity.
Defined.

(** ** From registration to dispatch *)

(** X9.  A function registered with [route] under a non-empty name before
    a connection is accepted is the one awaited, on the request's data,
    for an authenticated request to that name on that connection, whatever
    the live registry and the pending table held under the name before. *)
Theorem registered_route_is_served (srv : server.Server)
    (ROUTES : gmap string server.handler) (name : string)
    (func : server.handler) (request : list (string * json)) (d : json) :
  name <> "" ->
  server.authorized srv (dict_get request "headers") = inr true ->
  assoc "endpoint" request = Some (JStr name) ->
  assoc "data" request = Some d ->
  server.calls
    (snd (server.handle_accept srv (server.route (Some name) func ROUTES)
            [JDict request]))
  = [(func, {| server.data := d; server.endpoint := JStr name |})].
Proof.
  intros Hne Hauth Hep Hdata.
  rewrite handle_accept_merges. cbn [snd].
  set (srv' := fst (server.update_endpoints srv _)).
  assert (server.endpoints srv' !! name = Some func) as Hfunc.
  { subst srv'. simpl. apply lookup_union_Some_l. unfold server.route.
    rewrite bool_decide_eq_false_2 by done. apply lookup_insert_eq. }
  rewrite serve_single, (dispatch srv' request name func d) by done.
  cbv zeta. destruct (server.run func _); [apply reply_calls..|done].
Qed.

Lemma registered_route_is_served_witness :
  server.calls
    (snd (server.handle_accept demo_server
            (server.route (Some "echo") boom ∅)
            [JDict (demo_request (JStr "echo") demo_headers)]))
  = [(boom, {| server.data := JDict [("x", JInt 7)];
               server.endpoint := JStr "echo" |})].
Proof.
  apply (registered_route_is_served demo_server ∅ "echo" boom
           (demo_request (JStr "echo") demo_headers));
    [discriminate | reflexivity | reflexivity | reflexivity].
Defined.

(** X10.  Routes are merged connection by connection: after two accepted
    connections a name resolves to the handler registered before the
    second, else to the one registered before the first, else to the one
    the server held; and accepting a connection when nothing is pending
    leaves the registry as it is. *)
Theorem merge_by_connection (srv : server.Server)
    (before_first before_second : gmap string server.handler)
    (messages messages' : list json) :
  let first := server.handle_accept srv before_first messages in
  let second := server.handle_accept (fst (fst first)) before_second messages' in
  snd (fst first) = ∅
  /\ (forall name,
        server.endpoints (fst (fst second)) !! name
        = match before_second !! name with
          | Some func => Some func
          | None =>
              match before_first !! name with
              | Some func => Some func
              | None => server.endpoints srv !! name
              end
          end)
  /\ server.endpoints
       (fst (fst (server.handle_accept (fst (fst first)) (snd (fst first))
                    messages')))
     = server.endpoints (fst (fst first)).
Proof.
  simpl. repeat split.
  - intros name. rewrite !lookup_union.
    by destruct (before_second !! name), (before_first !! name),
                (server.endpoints srv !! name).
  - by rewrite (left_id_L ∅ (∪)).
Qed.

(** X11.  A server on which nothing was ever registered answers every
    authenticated request for a named endpoint with the 400 envelope. *)
Theorem fresh_server_knows_no_endpoint (secret host : string) (port : Z)
    (request : list (string * json)) (name : string) :
  server.authorized (server.init secret host port)
    (dict_get request "headers") = inr true ->
  assoc "endpoint" request = Some (JStr name) ->
  server.sent
    (snd (server.handle_accept (server.init secret host port) ∅
            [JDict request]))
  = [server.error_frame (dict_get request "nonce")
       "Invalid or no endpoint given." 400].
Proof.
  intros Hauth Hep. rewrite handle_accept_merges. cbn [snd].
  set (srv := fst _).
  assert (server.handle_message srv (JDict request)
          = {| server.sent := [server.error_frame (dict_get request "nonce")
                                 "Invalid or no endpoint given." 400];
               server.calls := []; server.raised := None |}) as Hstep.
  { apply unresolved_endpoint_400; [exact Hauth|].
    right. by rewrite (dict_get_present _ _ _ Hep). }
  rewrite serve_continues; by rewrite Hstep.
Qed.

Lemma fresh_server_knows_no_endpoint_witness :
  server.sent
    (snd (server.handle_accept (server.init "s3cret" "localhost" 8765) ∅
            [JDict (demo_request (JStr "echo") demo_headers)]))
  = [server.error_frame (JStr "n-1") "Invalid or no endpoint given." 400].
Proof.
  apply (fresh_server_knows_no_endpoint "s3cret" "localhost" 8765
           (demo_request (JStr "echo") demo_headers) "echo");
    reflexivity.
Defined.

(** * Further properties of the client *)

(** ** The send queue (lines 66 and 74-77) *)

Lemma requested_secret (c c' : client.Client) (events : list client.event) :
  client.secret_key c' = client.secret_key c ->
  client.requested c' events = client.requested c events.
Proof.
  intros Hsecret. unfold client.requested, client.payload.
  by rewrite Hsecret.
Qed.

Lemma written_app (c c' : client.Client) (frames : list (nat * client.frame)) :
  client.wire c' = client.wire c ++ frames ->
  client.written c'
  = client.written c
    ++ omap (fun f => match snd f with
                      | client.JsonFrame p => Some p
                      | _ => None
                      end) frames.
Proof. unfold client.written. intros ->. apply omap_app. Qed.

(** One step of any task keeps the send task wired, keeps the secret, and
    moves envelopes only from the front of the queue to the socket, or
    from a call to the back of the queue. *)
Lemma react_conserves (c : client.Client) (e : client.event) :
  client.wired c ->
  client.wired (client.react c e)
  /\ client.secret_key (client.react c e) = client.secret_key c
  /\ client.written (client.react c e) ++ client._queue (client.react c e)
     = client.written c ++ client._queue c ++ client.requested c [e].
Proof.
  intros Hwired. destruct e as [|recv|endpoint kwargs nonce]; simpl.
  - unfold client.send_step.
    destruct (client._sender c) as [[|]|] eqn:Hsender;
      try (by rewrite app_nil_r).
    destruct (Hwired Hsender) as [Hsession [ws Hws]].
    destruct (client._queue c) as [|p rest] eqn:Hqueue;
      [by rewrite Hqueue, !app_nil_r|].
    unfold client.write. simpl. rewrite Hws, Hsession.
    split; [by intros _; simpl; eauto|]. split; [done|].
    rewrite (written_app c _ [(ws, client.JsonFrame p)]) by done. simpl.
    by rewrite app_nil_r, <- app_assoc.
  - rewrite app_nil_r. unfold client.receive_step.
    destruct (client._worker c) as [[|]|]; try done.
    destruct recv as [document| | | |]; try done.
    + destruct (client.resolve c document) as [err|c'] eqn:Hresolve; [done|].
      unfold client.resolve in Hresolve.
      destruct document as [| | | | |d]; try done.
      destruct (assoc "nonce" d) as [nonce|]; [|done].
      destruct (client.find_future _ nonce) as [err|[fut|]]; simpl in Hresolve;
        try done; [|by simplify_eq].
      destruct nonce; try (by simplify_eq).
      destruct (client.set_result fut _); simpl in Hresolve; by simplify_eq.
    + unfold client.write.
      destruct (client._websocket c) as [n|] eqn:Hws; [|done].
      destruct (client._session c) as [[|]|] eqn:Hsession; try done.
      split; [|split; [done|]].
      * intros _. simpl. rewrite Hws, Hsession. eauto.
      * rewrite (written_app c _ [(n, client.PingFrame)]) by done. simpl.
        by rewrite app_nil_r.
  - unfold client.request_begin.
    destruct (client._session c) as [s|] eqn:Hsession; simpl.
    + split; [|by split].
      intros Hsender. destruct (Hwired Hsender) as [Hs Hw]. by split.
    + split; [|by split].
      intros _. simpl. eauto.
Qed.

(** X12.  On a client whose connection is established (session and
    socket set, so that no call is inside [init_sock] or goes through
    it), envelopes leave in call order, each exactly once, and nothing
    else is written as an envelope: along any interleaving of calls, send
    steps and received messages other than CLOSED, the documents written
    so far followed by those still queued are the ones there were at the
    start followed by the envelopes of the calls made since, in the order
    of the calls. *)
Theorem envelopes_leave_in_call_order (events : list client.event)
    (c : client.Client) :
  client._session c <> None ->
  is_Some (client._websocket c) ->
  client.wired c ->
  client.no_closed events ->
  client.written (client.run c events) ++ client._queue (client.run c events)
  = client.written c ++ client._queue c ++ client.requested c events.
Proof.
  intros _ _ Hwired Hevents. revert c Hwired.
  induction Hevents as [|e events _ _ IH]; intros c Hwired.
  - simpl. by rewrite app_nil_r.
  - destruct (react_conserves c e Hwired) as (Hwired' & Hsecret & Hstep).
    change (client.run c (e :: events))
      with (client.run (client.react c e) events).
    rewrite (IH _ Hwired'), (requested_secret c _ events Hsecret).
    rewrite app_assoc, Hstep, <- !app_assoc.
    by change (e :: events) with ([e] ++ events);
      unfold client.requested; rewrite omap_app.
Qed.

Lemma envelopes_leave_in_call_order_witness :
  let c := client.init_sock demo_client in
  let events :=
    [client.Request "echo" [] "n-1"; client.Request "fail" [] "n-2";
     client.Send; client.Receive client.PING;
     client.Request "echo" [] "n-3"; client.Send] in
  client.written (client.run c events) ++ client._queue (client.run c events)
  = [client.payload demo_client "echo" [] "n-1";
     client.payload demo_client "fail" [] "n-2";
     client.payload demo_client "echo" [] "n-3"].
Proof.
  intros c events.
  rewrite (envelopes_leave_in_call_order events c).
  - reflexivity.
  - discriminate.
  - by eexists.
  - intros _. split; [reflexivity | by eexists].
  - repeat constructor; discriminate.
Defined.

(** ** Matching responses to calls (lines 94-106) *)

(** X13.  Responses are matched by nonce alone, whatever their order: of
    two pending calls with different nonces, each is resolved with the
    response that bears its nonce, and taking the two responses in either
    order leaves the client in the same state. *)
Theorem responses_match_in_any_order (c : client.Client) (n1 n2 : string)
    (v1 v2 : json) :
  client._worker c = Some client.Running ->
  n1 <> n2 ->
  client._requests c !! n1 = Some client.Pending ->
  client._requests c !! n2 = Some client.Pending ->
  let r1 := client.TEXT (server.response_frame (JStr n1) v1) in
  let r2 := client.TEXT (server.response_frame (JStr n2) v2) in
  let c' := client.receive_step (client.receive_step c r1) r2 in
  client.receive_step (client.receive_step c r2) r1 = c'
  /\ client._requests c' !! n1 = Some (client.Done (loads v1))
  /\ client._requests c' !! n2 = Some (client.Done (loads v2)).
Proof.
  intros Hworker Hne H1 H2 r1 r2 c'. subst r1 r2 c'.
  rewrite (receive_resolves c n1 v1), (receive_resolves c n2 v2) by done.
  rewrite !receive_resolves;
    try done; try (simpl; by rewrite lookup_insert_ne).
  simpl. repeat split.
  - unfold client.set_requests. simpl. f_equal. by apply insert_insert_ne.
  - rewrite lookup_insert_ne by done. apply lookup_insert_eq.
  - apply lookup_insert_eq.
Qed.

Lemma responses_match_in_any_order_witness :
  let c := client.run (client.init_sock demo_client)
             [client.Request "echo" [] "n-1"; client.Request "echo" [] "n-2"] in
  let r1 := client.TEXT (server.response_frame (JStr "n-1") (JInt 1)) in
  let r2 := client.TEXT (server.response_frame (JStr "n-2") (JInt 2)) in
  client._requests (client.receive_step (client.receive_step c r2) r1) !! "n-1"
  = Some (client.Done (PInt 1)).
Proof.
  intros c r1 r2.
  destruct (responses_match_in_any_order c "n-1" "n-2" (JInt 1) (JInt 2))
    as (Horder & H1 & _); [reflexivity | discriminate | reflexivity | reflexivity |].
  fold r1 r2 in Horder. rewrite Horder. exact H1.
Defined.

(** X14.  Once a call has returned, with a result or on its timeout, a
    response that arrives for its nonce is dropped: the client is left
    exactly as it was. *)
Theorem returned_call_ignores_response (c c' : client.Client) (nonce : string)
    (timeout : option Z) (default_value : option pyval) (elapsed : Z)
    (r : exn + pyval) (response : json) :
  client.request_end c nonce timeout default_value elapsed = Some (c', r) ->
  client.receive_step c'
    (client.TEXT (server.response_frame (JStr nonce) response)) = c'.
Proof.
  intros Hend. apply late_response_dropped.
  unfold client.request_end in Hend.
  destruct (client._requests c !! nonce) as [fut|]; [|done].
  destruct (client.wait_for fut timeout elapsed) as [[error|result]|]; [| |done].
  - destruct (bool_decide _); simplify_eq; apply lookup_delete_eq.
  - simplify_eq. apply lookup_delete_eq.
Qed.

Lemma returned_call_ignores_response_witness :
  let c := client.request_begin demo_client "echo" [] "n-1" in
  exists c',
    client.request_end c "n-1" (Some 15) None 15 = Some (c', inr PNone)
    /\ client.receive_step c'
         (client.TEXT (server.response_frame (JStr "n-1") (JInt 1))) = c'.
Proof.
  intros c. eexists. split; [reflexivity|].
  eapply (returned_call_ignores_response c _ "n-1" (Some 15) None 15).
  reflexivity.
Defined.

(** X15.  An inbound document that bears the nonce of a pending call but
    has no "response" entry resolves the call with the whole document. *)
Theorem bare_document_resolves_with_itself (c : client.Client) (nonce : string)
    (d : list (string * json)) :
  client._worker c = Some client.Running ->
  client._requests c !! nonce = Some client.Pending ->
  assoc "nonce" d = Some (JStr nonce) ->
  assoc "response" d = None ->
  client.receive_step c (client.TEXT (JDict d))
  = client.set_requests c
      (<[nonce := client.Done (loads (JDict d))]> (client._requests c)).
Proof.
  intros Hworker Hpending Hnonce Hresponse.
  unfold client.receive_step, client.resolve.
  rewrite Hworker, Hnonce, Hresponse. simpl. by rewrite Hpending.
Qed.

Lemma bare_document_resolves_with_itself_witness :
  let c := client.request_begin demo_client "echo" [] "n-1" in
  client._requests
    (client.receive_step c
       (client.TEXT (JDict [("nonce", JStr "n-1"); ("code", JInt 200)])))
    !! "n-1"
  = Some (client.Done (PDict [(KStr "nonce", PStr "n-1");
                              (KStr "code", PInt 200)])).
Proof.
  intros c.
  rewrite (bare_document_resolves_with_itself c "n-1"
             [("nonce", JStr "n-1"); ("code", JInt 200)]);
    reflexivity.
Defined.

(** ** The end of the receive task *)

(** X16.  An inbound document without a "nonce" entry raises KeyError at
    line 96, outside the [try]: the receive task ends there, and no
    future is touched. *)
Theorem nonce_less_document_ends_receiving (c : client.Client)
    (d : list (string * json)) :
  client._worker c = Some client.Running ->
  assoc "nonce" d = None ->
  client.receive_step c (client.TEXT (JDict d))
  = client.set_worker c (Some (client.Failed (KeyError "'nonce'"))).
Proof.
  intros Hworker Hnonce. unfold client.receive_step, client.resolve.
  by rewrite Hworker, Hnonce.
Qed.

Lemma nonce_less_document_ends_receiving_witness :
  let c := client.request_begin demo_client "echo" [] "n-1" in
  client.receive_step c (client.TEXT (JDict [("response", JInt 1)]))
  = client.set_worker c (Some (client.Failed (KeyError "'nonce'"))).
Proof.
  intros c.
  apply (nonce_less_document_ends_receiving c [("response", JInt 1)]);
    reflexivity.
Defined.

Lemma react_dead_worker (c : client.Client) (e : client.event) (error : exn) :
  client._worker c = Some (client.Failed error) ->
  client._worker (client.react c e) = Some (client.Failed error)
  /\ (forall n, client._requests c !! n = Some client.Pending ->
                client._requests (client.react c e) !! n = Some client.Pending).
Proof.
  intros Hworker. destruct e as [|recv|endpoint kwargs nonce]; simpl.
  - unfold client.send_step.
    destruct (client._sender c) as [[|]|]; try done.
    destruct (client._queue c) as [|p rest]; [done|].
    unfold client.write. simpl.
    by destruct (client._websocket c), (client._session c) as [[|]|].
  - unfold client.receive_step. by rewrite Hworker.
  - unfold client.request_begin.
    destruct (client._session c); simpl; rewrite ?Hworker; simpl.
    + split; [done|]. intros n Hn. destruct (decide (nonce = n)) as [->|Hne];
        [by rewrite lookup_insert_eq | by rewrite lookup_insert_ne].
    + split; [done|]. intros n Hn. destruct (decide (nonce = n)) as [->|Hne];
        [by rewrite lookup_insert_eq | by rewrite lookup_insert_ne].
Qed.

(** X17.  A receive task that has ended with an exception is never
    started again: [init_sock] starts a loop only when its attribute is
    None, and the attribute still holds the dead task.  Whatever calls,
    send steps and messages follow, no pending call is ever resolved, so
    that each can only time out. *)
Theorem dead_worker_resolves_nothing (events : list client.event)
    (c : client.Client) (error : exn) (nonce : string) (t elapsed : Z)
    (default_value : option pyval) :
  client._worker c = Some (client.Failed error) ->
  client._requests c !! nonce = Some client.Pending ->
  t <= elapsed ->
  client._worker (client.run c events) = Some (client.Failed error)
  /\ client._requests (client.run c events) !! nonce = Some client.Pending
  /\ exists c',
       client.request_end (client.run c events) nonce (Some t)
         default_value elapsed
       = Some (c', inr (default PNone default_value)).
Proof.
  intros Hworker Hpending Hle.
  assert (client._worker (client.run c events) = Some (client.Failed error)
          /\ client._requests (client.run c events) !! nonce
             = Some client.Pending) as [Hworker' Hpending'].
  { revert c Hworker Hpending.
    induction events as [|e events IH]; intros c Hworker Hpending; [done|].
    destruct (react_dead_worker c e error Hworker) as [Hw Hp].
    apply (IH (client.react c e)); auto. }
  repeat split; try done.
  rewrite (request_end_expired _ nonce client.Pending t elapsed _ Hpending' Hle).
  eauto.
Qed.

Lemma dead_worker_resolves_nothing_witness :
  let c := client.receive_step
             (client.request_begin demo_client "echo" [] "n-1")
             (client.TEXT (JDict [("response", JInt 1)])) in
  let events :=
    [client.Send;
     client.Receive (client.TEXT (server.response_frame (JStr "n-1") (JInt 1)));
     client.Receive client.CLOSED;
     client.Request "echo" [] "n-2"] in
  exists c',
    client.request_end (client.run c events) "n-1" (Some 15) None 15
    = Some (c', inr PNone).
Proof.
  intros c events.
  destruct (dead_worker_resolves_nothing events c (KeyError "'nonce'") "n-1"
              15 15 None) as (_ & _ & Hend);
    [reflexivity | reflexivity | lia | exact Hend].
Defined.

(** ** Connections (lines 33-45, 54-55 and 89-92) *)

(** X18.  Handling a CLOSED message, with no other task running
    meanwhile, closes the session and opens a new session and a new
    socket without touching the loops, the pending futures, the queue or
    what was written; the send loop then writes the next queued envelope
    to the new socket. *)
Theorem closed_message_reconnects (c : client.Client) (p : json)
    (rest : list json) :
  client._worker c = Some client.Running ->
  client._sender c = Some client.Running ->
  client._queue c = p :: rest ->
  let c' := client.receive_step c client.CLOSED in
  client._session c' = Some client.Live
  /\ client._websocket c' = Some (client.sockets c)
  /\ client.sockets c' = S (client.sockets c)
  /\ client._worker c' = Some client.Running
  /\ client._sender c' = Some client.Running
  /\ client._requests c' = client._requests c
  /\ client._queue c' = client._queue c
  /\ client.wire c' = client.wire c
  /\ client.wire (client.send_step c')
     = client.wire c ++ [(client.sockets c, client.JsonFrame p)].
Proof.
  intros Hworker Hsender Hqueue c'. subst c'.
  unfold client.receive_step. rewrite Hworker.
  repeat split; simpl; try by rewrite ?Hworker, ?Hsender.
  unfold client.send_step, client.write. simpl. by rewrite Hsender, Hqueue.
Qed.

Lemma closed_message_reconnects_witness :
  let c := client.request_begin demo_client "echo" [] "n-1" in
  client.wire (client.send_step (client.receive_step c client.CLOSED))
  = [(1%nat, client.JsonFrame (client.payload demo_client "echo" [] "n-1"))].
Proof.
  intros c.
  destruct (closed_message_reconnects c
              (client.payload demo_client "echo" [] "n-1") [])
    as (_ & _ & _ & _ & _ & _ & _ & _ & Hwire);
    [reflexivity | reflexivity | reflexivity | exact Hwire].
Defined.

Lemma react_keeps_connection (c : client.Client) (e : client.event) :
  client._session c <> None ->
  e <> client.Receive client.CLOSED ->
  client._session (client.react c e) = client._session c
  /\ client._websocket (client.react c e) = client._websocket c
  /\ client.sockets (client.react c e) = client.sockets c.
Proof.
  intros Hsession He. destruct e as [|recv|endpoint kwargs nonce]; simpl.
  - unfold client.send_step.
    destruct (client._sender c) as [[|]|]; try done.
    destruct (client._queue c) as [|p rest]; [done|].
    unfold client.write. simpl.
    destruct (client._websocket c) eqn:Hws,
             (client._session c) as [[|]|] eqn:Hs;
      simpl; by rewrite ?Hws, ?Hs.
  - unfold client.receive_step.
    destruct (client._worker c) as [[|]|]; try done.
    destruct recv as [document| | | |]; try done.
    + destruct (client.resolve c document) as [err|c'] eqn:Hresolve; [done|].
      unfold client.resolve in Hresolve.
      destruct document as [| | | | |d]; try done.
      destruct (assoc "nonce" d) as [nonce|]; [|done].
      destruct (client.find_future _ nonce) as [err|[fut|]]; simpl in Hresolve;
        try done; [|by simplify_eq].
      destruct nonce; try (by simplify_eq).
      destruct (client.set_result fut _); simpl in Hresolve; by simplify_eq.
    + unfold client.write.
      destruct (client._websocket c) eqn:Hws,
               (client._session c) as [[|]|] eqn:Hs;
        simpl; by rewrite ?Hws, ?Hs.
  - unfold client.request_begin.
    destruct (client._session c) eqn:Hs; [|done]. simpl. by rewrite Hs.
Qed.

(** X19.  Only a CLOSED message makes a connected client connect again:
    along any interleaving of calls, send steps and other messages, a
    client that has a session keeps that session and that socket, and
    opens no other. *)
Theorem only_closed_reconnects (events : list client.event) (c : client.Client) :
  client._session c <> None ->
  client.no_closed events ->
  client._session (client.run c events) = client._session c
  /\ client._websocket (client.run c events) = client._websocket c
  /\ client.sockets (client.run c events) = client.sockets c.
Proof.
  intros Hsession Hevents. revert c Hsession.
  induction Hevents as [|e events He _ IH]; intros c Hsession; [done|].
  destruct (react_keeps_connection c e Hsession He) as (Hs & Hw & Hn).
  change (client.run c (e :: events))
    with (client.run (client.react c e) events).
  destruct (IH (client.react c e)) as (Hs' & Hw' & Hn'); [congruence|].
  repeat split; congruence.
Qed.

Lemma only_closed_reconnects_witness :
  let c := client.request_begin demo_client "echo" [] "n-1" in
  let events :=
    [client.Send; client.Request "echo" [] "n-2"; client.Receive client.PING;
     client.Receive (client.TEXT (JList [])); client.Request "echo" [] "n-3"] in
  client.sockets (client.run c events) = 1%nat.
Proof.
  intros c events.
  destruct (only_closed_reconnects events c) as (_ & _ & Hsockets);
    [discriminate | repeat constructor; discriminate | exact Hsockets].
Defined.

(** ** [close] (lines 108-117) *)

(** X20.  [close] raises exactly on a client that never had a session;
    otherwise it leaves the pending futures, the queue and what was
    written as they were, and closing again changes nothing. *)
Theorem close_outcomes (c : client.Client) :
  ((exists e, client.close c = inl e) <-> client._session c = None)
  /\ forall c0, client.close c = inr c0 ->
       client.close c0 = inr c0
       /\ client._requests c0 = client._requests c
       /\ client._queue c0 = client._queue c
       /\ client.wire c0 = client.wire c.
Proof.
  unfold client.close. split.
  - destruct (client._session c); split; try done; [by intros [? ?]|by eauto].
  - intros c0 Hclose. destruct (client._session c); [|done].
    by simplify_eq.
Qed.

(** X21.  A call that is pending when the client is closed is abandoned:
    whatever happens afterwards its future is never resolved, and the
    call returns [default_value] once its bound has passed. *)
Theorem close_abandons_pending (events : list client.event)
    (c c0 : client.Client) (nonce : string) (t elapsed : Z)
    (default_value : option pyval) :
  client.close c = inr c0 ->
  client._requests c !! nonce = Some client.Pending ->
  t <= elapsed ->
  client._requests (client.run c0 events) !! nonce = Some client.Pending
  /\ exists c',
       client.request_end (client.run c0 events) nonce (Some t)
         default_value elapsed
       = Some (c', inr (default PNone default_value)).
Proof.
  intros Hclose Hpending Hle.
  destruct (close_closed c c0 Hclose) as (Hc0 & _ & _ & _ & Hrequests).
  destruct (run_closed events c0 Hc0) as (_ & _ & _ & _ & Hkeep).
  assert (client._requests (client.run c0 events) !! nonce
          = Some client.Pending) as Hpending'
    by (apply Hkeep; by rewrite Hrequests).
  split; [done|].
  rewrite (request_end_expired _ nonce client.Pending t elapsed _ Hpending' Hle).
  eauto.
Qed.

Lemma close_abandons_pending_witness :
  let c := client.send_step (client.request_begin demo_client "echo" [] "n-1") in
  let c0 := client.set_sender
              (client.set_worker (client.set_session c (Some client.Shut)) None)
              None in
  let events :=
    [client.Receive (client.TEXT (server.response_frame (JStr "n-1") (JInt 1)));
     client.Send] in
  exists c',
    client.request_end (client.run c0 events) "n-1" (Some 15)
      (Some (PStr "offline")) 15
    = Some (c', inr (PStr "offline")).
Proof.
  intros c c0 events.
  destruct (close_abandons_pending events c c0 "n-1" 15 15
              (Some (PStr "offline"))) as (_ & Hend);
    [reflexivity | reflexivity | lia | exact Hend].
Defined.

Lemma close_outcomes_witness :
  let c := client.init_sock demo_client in
  let c0 := client.set_sender
              (client.set_worker (client.set_session c (Some client.Shut)) None)
              None in
  client.close c0 = inr c0.
Proof.
  intros c c0.
  destruct (close_outcomes c) as [_ Hagain].
  destruct (Hagain c0) as [Hclose _]; [reflexivity | exact Hclose].
Defined.

(** ** Waiting (lines 68-72) *)

(** X22.  A call made after [close] with [timeout=None] never returns:
    its future stays pending whatever happens, and without a bound
    [wait_for] goes on waiting however much time has passed. *)
Theorem unbounded_call_after_close_hangs (events : list client.event)
    (c c0 : client.Client) (endpoint : string)
    (kwargs : list (string * json)) (nonce : string)
    (default_value : option pyval) (elapsed : Z) :
  client.close c = inr c0 ->
  client.request_end
    (client.run (client.request_begin c0 endpoint kwargs nonce) events)
    nonce None default_value elapsed = None.
Proof.
  intros Hclose.
  destruct (close_closed c c0 Hclose) as (Hc0 & _).
  destruct (react_closed c0 (client.Request endpoint kwargs nonce) Hc0)
    as (Hc1 & _).
  destruct (run_closed events _ Hc1) as (_ & _ & _ & _ & Hkeep).
  apply request_end_waits; [|done].
  apply Hkeep. simpl. unfold client.request_begin.
  destruct (client._session c0); simpl; by rewrite lookup_insert_eq.
Qed.

Lemma unbounded_call_after_close_hangs_witness :
  let c := client.init_sock demo_client in
  let c0 := client.set_sender
              (client.set_worker (client.set_session c (Some client.Shut)) None)
              None in
  client.request_end
    (client.run (client.request_begin c0 "echo" [] "n-1")
       [client.Send; client.Receive client.CLOSED])
    "n-1" None (Some (PStr "offline")) 1000000 = None.
Proof.
  intros c c0.
  apply (unbounded_call_after_close_hangs
           [client.Send; client.Receive client.CLOSED] c c0).
  reflexivity.
Defined.

(** ** What a call returns, end to end *)

(** Past its deadline a call on a ready client returns [default_value],
    whatever the server did with its envelope. *)
Lemma call_expired (srv : server.Server) (c : client.Client)
    (endpoint : string) (t : Z) (default_value : option pyval)
    (kwargs : list (string * json)) (nonce : string) (elapsed : Z) :
  client.ready c ->
  t <= elapsed ->
  exists c',
    call srv c endpoint (Some t) default_value kwargs nonce elapsed
    = Some (c', inr (default PNone default_value)).
Proof.
  intros Hready Hle.
  assert (exists frames fut,
            server.sent (server.serve srv [client.payload c endpoint kwargs nonce])
            = frames
            /\ (frames = [] /\ fut = client.Pending
                \/ exists j, frames = [server.response_frame (JStr nonce) j]
                             /\ fut = client.Done (loads j)))
    as (frames & fut & Hsent & Hframes).
  { rewrite serve_single.
    destruct (sent_shape srv [("endpoint", JStr endpoint); ("data", JDict kwargs);
                               ("headers", JDict [("Authorization",
                                                   JStr (client.secret_key c))]);
                               ("nonce", JStr nonce)])
      as [Hnone | [j Hone]].
    - exists [], client.Pending. split; [exact Hnone|]. by left.
    - exists [server.response_frame (JStr nonce) j], (client.Done (loads j)).
      split; [exact Hone|]. right. by exists j. }
  destruct (call_steps srv c endpoint (Some t) default_value kwargs nonce elapsed
              frames fut Hready Hsent Hframes) as (c3 & -> & Hrequests).
  rewrite (request_end_expired c3 nonce fut t elapsed);
    [by eexists | by rewrite Hrequests, lookup_insert_eq | done].
Qed.

(** X23.  A call made on a ready client with an ASCII secret other than
    the server's, itself ASCII, does not raise: when the reply comes
    before the deadline it returns the dictionary
    [{"error": "Invalid or no token provided.", "code": 401}] as its
    value, whatever the endpoint. *)
Theorem wrong_secret_returns_401 (srv : server.Server) (c : client.Client)
    (endpoint : string) (timeout : option Z) (default_value : option pyval)
    (kwargs : list (string * json)) (nonce : string) (elapsed : Z) :
  client.ready c ->
  is_ascii (client.secret_key c) = true ->
  is_ascii (server.secret_key srv) = true ->
  client.secret_key c <> server.secret_key srv ->
  0 <= elapsed ->
  (forall t, timeout = Some t -> elapsed < t) ->
  exists c',
    call srv c endpoint timeout default_value kwargs nonce elapsed
    = Some (c', inr (server.error_body "Invalid or no token provided." 401)).
Proof.
  intros Hready Hc Hs Hsecret _ Hlt.
  destruct (call_delivers srv c endpoint timeout default_value kwargs nonce elapsed
              (JDict [("error", JStr "Invalid or no token provided.");
                      ("code", JInt 401)])) as (c' & Hcall & _);
    [done| |done|by exists c'].
  rewrite serve_single. unfold client.payload. rewrite rejected_401; [done|].
  by apply (wrong_token_rejected srv _ (client.secret_key c)).
Qed.

Lemma wrong_secret_returns_401_witness :
  exists c',
    call demo_server (client.init "guess" "localhost" 8765) "echo" (Some 15)
      None [] "n-1" 1
    = Some (c', inr (server.error_body "Invalid or no token provided." 401)).
Proof.
  apply (wrong_secret_returns_401 demo_server
           (client.init "guess" "localhost" 8765)).
  - split; [reflexivity|]. left. by repeat split.
  - reflexivity.
  - reflexivity.
  - discriminate.
  - lia.
  - intros t [= <-]. lia.
Defined.

(** X24.  When the handler raises an exception that [except Exception]
    catches, the call does not raise: when the reply comes before the
    deadline it returns the dictionary
    [{"error": "IPC route raised error of type <class>", "code": 500}]
    as its value. *)
Theorem handler_error_returned_as_value (srv : server.Server) (c : client.Client)
    (endpoint : string) (timeout : option Z) (default_value : option pyval)
    (kwargs : list (string * json)) (nonce : string) (elapsed : Z)
    (func : server.handler) (error : exn) :
  client.ready c ->
  client.secret_key c = server.secret_key srv ->
  is_ascii (server.secret_key srv) = true ->
  endpoint <> "" ->
  server.endpoints srv !! endpoint = Some func ->
  server.run func {| server.data := JDict kwargs;
                     server.endpoint := JStr endpoint |}
  = server.Raises error ->
  0 <= elapsed ->
  (forall t, timeout = Some t -> elapsed < t) ->
  exists c',
    call srv c endpoint timeout default_value kwargs nonce elapsed
    = Some (c', inr (server.error_body
                       ("IPC route raised error of type " +:+ exn_type error)
                       500)).
Proof.
  intros Hready Hsecret Hascii Hne Hfunc Hrun _ Hlt.
  destruct (call_delivers srv c endpoint timeout default_value kwargs nonce elapsed
              (JDict [("error", JStr ("IPC route raised error of type "
                                      +:+ exn_type error));
                      ("code", JInt 500)])) as (c' & Hcall & _);
    [done| |done|by exists c'].
  rewrite serve_single. unfold client.payload.
  rewrite (dispatch srv _ endpoint func (JDict kwargs));
    [|by apply payload_authorized|done..].
  cbv zeta. rewrite Hrun. by rewrite reply_error.
Qed.

Lemma handler_error_returned_as_value_witness :
  exists c',
    call demo_server demo_client "fail" (Some 15) None [] "n-1" 1
    = Some (c', inr (server.error_body
                       "IPC route raised error of type ValueError" 500)).
Proof.
  apply (handler_error_returned_as_value demo_server demo_client "fail"
           (Some 15) None [] "n-1" 1 boom
           (Exn "ValueError" "db password is hunter2")).
  - split; [reflexivity|]. left. by repeat split.
  - reflexivity.
  - reflexivity.
  - discriminate.
  - reflexivity.
  - reflexivity.
  - lia.
  - intros t [= <-]. lia.
Defined.

(** X25.  On a ready client, and with the transport doing its part, a
    call whose bound has passed always returns a value: whatever the
    server holds, whatever the endpoint, the secret and the handler,
    [request] neither raises nor stays suspended. *)
Theorem request_always_returns (srv : server.Server) (c : client.Client)
    (endpoint : string) (t : Z) (default_value : option pyval)
    (kwargs : list (string * json)) (nonce : string) (elapsed : Z) :
  client.ready c ->
  t <= elapsed ->
  exists c' value,
    call srv c endpoint (Some t) default_value kwargs nonce elapsed
    = Some (c', inr value).
Proof.
  intros Hready Hle.
  destruct (call_expired srv c endpoint t default_value kwargs nonce elapsed
              Hready Hle) as [c' Hcall].
  eauto.
Qed.

Lemma request_always_returns_witness :
  exists c' value,
    call demo_server demo_client "grid" (Some 15) (Some (PStr "offline")) []
      "n-1" 15
    = Some (c', inr value).
Proof.
  apply (request_always_returns demo_server demo_client "grid" 15
           (Some (PStr "offline")) [] "n-1" 15).
  - split; [reflexivity|]. left. by repeat split.
  - lia.
Defined.

(** * Further properties: default names and the first connection *)

(** X26.  A function registered with [route] without a name, or with the
    empty name, is served under its own name: it is the one awaited for
    an authenticated request to that name on the next connection. *)
Theorem unnamed_route_is_served_under_own_name (srv : server.Server)
    (ROUTES : gmap string server.handler) (name : option string)
    (func : server.handler) (request : list (string * json)) (d : json) :
  name = None \/ name = Some "" ->
  server.func_name func <> "" ->
  server.authorized srv (dict_get request "headers") = inr true ->
  assoc "endpoint" request = Some (JStr (server.func_name func)) ->
  assoc "data" request = Some d ->
  server.calls
    (snd (server.handle_accept srv (server.route name func ROUTES)
            [JDict request]))
  = [(func, {| server.data := d;
               server.endpoint := JStr (server.func_name func) |})].
Proof.
  intros Hname Hne Hauth Hep Hdata.
  rewrite handle_accept_merges. cbn [snd].
  set (srv' := fst (server.update_endpoints srv _)).
  assert (server.endpoints srv' !! server.func_name func = Some func) as Hfunc.
  { subst srv'. simpl. apply lookup_union_Some_l.
    destruct Hname as [-> | ->]; apply lookup_insert_eq. }
  rewrite serve_single,
    (dispatch srv' request (server.func_name func) func d) by done.
  cbv zeta. destruct (server.run func _); [apply reply_calls..|done].
Qed.

Lemma unnamed_route_is_served_under_own_name_witness :
  server.calls
    (snd (server.handle_accept (server.init "s3cret" "localhost" 8765)
            (server.route (Some "") echo ∅)
            [JDict (demo_request (JStr "echo") demo_headers)]))
  = [(echo, {| server.data := JDict [("x", JInt 7)];
               server.endpoint := JStr "echo" |})].
Proof.
  apply (unnamed_route_is_served_under_own_name
           (server.init "s3cret" "localhost" 8765) ∅ (Some "") echo
           (demo_request (JStr "echo") demo_headers));
    [by right | discriminate | reflexivity | reflexivity | reflexivity].
Defined.

(** X27.  Calls share one connection: on a client that was never
    connected, the first call opens the first socket and starts both
    loops, and however many calls, send steps and messages other than
    CLOSED follow, no second socket is opened. *)
Theorem calls_share_one_connection (secret host : string) (port : Z)
    (endpoint : string) (kwargs : list (string * json)) (nonce : string)
    (events : list client.event) :
  client.no_closed events ->
  let c := client.run
             (client.request_begin (client.init secret host port)
                endpoint kwargs nonce) events in
  client.sockets c = 1%nat
  /\ client._websocket c = Some 0%nat
  /\ client._session c = Some client.Live.
Proof.
  intros Hevents.
  set (c1 := client.request_begin (client.init secret host port)
               endpoint kwargs nonce).
  assert (forall c, client._session c <> None ->
            client._session (client.run c events) = client._session c
            /\ client._websocket (client.run c events) = client._websocket c
            /\ client.sockets (client.run c events) = client.sockets c)
    as Hkeep.
  { induction Hevents as [|e events He _ IH]; intros c Hsession; [done|].
    destruct (react_keeps_connection c e Hsession He) as (Hs & Hw & Hn).
    change (client.run c (e :: events))
      with (client.run (client.react c e) events).
    destruct (IH (client.react c e)) as (Hs' & Hw' & Hn'); [congruence|].
    repeat split; congruence. }
  destruct (Hkeep c1) as (Hs & Hw & Hn); [done|].
  cbv zeta. by rewrite Hs, Hw, Hn.
Qed.

Lemma calls_share_one_connection_witness :
  client.sockets
    (client.run (client.request_begin demo_client "echo" [] "n-1")
       [client.Request "echo" [] "n-2"; client.Send; client.Send;
        client.Request "fail" [] "n-3"]) = 1%nat.
Proof.
  apply (calls_share_one_connection "s3cret" "localhost" 8765 "echo" [] "n-1"
           [client.Request "echo" [] "n-2"; client.Send; client.Send;
            client.Request "fail" [] "n-3"]).
  repeat constructor; discriminate.
Defined.

(** ** The first connection, seen through its suspension *)

(** With nothing happening while the socket is being opened, the steps
    of the first call make up [request_begin]. *)
Lemma request_begin_steps (c : client.Client) (endpoint : string)
    (kwargs : list (string * json)) (nonce : string) :
  client.request_begin c endpoint kwargs nonce
  = match client._session c with
    | None =>
        client.enqueue (client.init_sock_end (client.init_sock_begin c))
          endpoint kwargs nonce
    | Some _ => client.enqueue c endpoint kwargs nonce
    end.
Proof. unfold client.request_begin. by destruct (client._session c). Qed.

(** X28.  A call made while the first call is still opening the socket
    overtakes it: it finds the session already set (line 34), skips
    [init_sock] and enqueues its envelope at once, so that the envelope
    of the first call is queued, and then written, after it.  Still only
    one socket is opened, and both calls are pending. *)
Theorem call_during_connect_overtakes (secret host : string) (port : Z)
    (endpoint endpoint' : string) (kwargs kwargs' : list (string * json))
    (nonce nonce' : string) :
  let c := client.init secret host port in
  let first := client.payload c endpoint kwargs nonce in
  let second := client.payload c endpoint' kwargs' nonce' in
  let connecting := client.init_sock_begin c in
  let c' := client.enqueue
              (client.init_sock_end
                 (client.request_begin connecting endpoint' kwargs' nonce'))
              endpoint kwargs nonce in
  client._queue c' = [second; first]
  /\ client.wire (client.send_step (client.send_step c'))
     = [(0%nat, client.JsonFrame second); (0%nat, client.JsonFrame first)]
  /\ client.sockets c' = 1%nat
  /\ client._requests c' !! nonce = Some client.Pending
  /\ (nonce <> nonce' -> client._requests c' !! nonce' = Some client.Pending).
Proof.
  simpl. repeat split.
  - apply lookup_insert_eq.
  - intros Hne. rewrite lookup_insert_ne by done. apply lookup_insert_eq.
Qed.

Lemma call_during_connect_overtakes_witness :
  let c' := client.enqueue
              (client.init_sock_end
                 (client.request_begin (client.init_sock_begin demo_client)
                    "fail" [] "n-2"))
              "echo" [] "n-1" in
  client._requests c' !! "n-2" = Some client.Pending.
Proof.
  intros c'.
  destruct (call_during_connect_overtakes "s3cret" "localhost" 8765
              "echo" "fail" [] [] "n-1" "n-2") as (_ & _ & _ & _ & Hsecond).
  apply Hsecond. discriminate.
Defined.
